(** * MongoNews: the ingestion loop of [load-json.py] and the four queries of
    [phase2_query.py], embedded as functions, with their properties.

    Text is modelled as ASCII strings ([string], one [ascii] per character):
    on ASCII text Python's [str.lower] and the store's [$toLower] coincide,
    and the store's binary string order is the lexicographic order of the
    character codes.

    The file has two parts.  The embedding: modules [Text], [Store], [Query]
    and [Loader] follow the source; [Calendar] is an instance of the store's
    date operators and [Examples] holds small corpora, both for the worked
    examples; [Spec] and [LoaderSpec] hold the notions of the specification
    that the code is compared with; [Session] is the menu loop, [Reload] the
    drop of an existing collection before the load, and [SpecMore] holds
    further notions.  Then the properties: modules [TextFacts],
    [StoreFacts], [QueryFacts] and [LoaderFacts], followed by
    [QueryExtras], [SessionFacts] and [LoaderExtras]. *)

From Stdlib Require Import ZArith Ascii Lia.
From Stdlib Require String.
From stdpp Require Import gmap strings list sorting.

(** ** Text: lowercasing, stripping, ordering, tokenizing *)

Module Text.

Definition code (c : ascii) : N := N_of_ascii c.

(** [$toLower] / [str.lower] on one ASCII character. *)
Definition lower_ascii (c : ascii) : ascii :=
  if ((65 <=? code c) && (code c <=? 90))%N
  then ascii_of_N (code c + 32) else c.

(** The store's [$toLower], which changes the ASCII letters only; on ASCII
    text it is also Python's [str.lower]. *)
Fixpoint lower (s : string) : string :=
  match s with
  | EmptyString => EmptyString
  | String c s' => String (lower_ascii c) (lower s')
  end.

(** The ASCII characters that [str.strip()] removes. *)
Definition is_space (c : ascii) : bool :=
  (((9 <=? code c) && (code c <=? 13)) ||
   ((28 <=? code c) && (code c <=? 32)))%N.

Fixpoint lstrip (s : string) : string :=
  match s with
  | EmptyString => EmptyString
  | String c s' => if is_space c then lstrip s' else s
  end.

Fixpoint rstrip (s : string) : string :=
  match s with
  | EmptyString => EmptyString
  | String c s' =>
      match rstrip s' with
      | EmptyString => if is_space c then EmptyString else String c EmptyString
      | r => String c r
      end
  end.

(** [str.strip()] on ASCII text. *)
Definition strip (s : string) : string := rstrip (lstrip s).

(** The character class [[a-zA-Z0-9_-]] of the Op1 regular expression. *)
Definition is_word_char (c : ascii) : bool :=
  (((97 <=? code c) && (code c <=? 122)) ||
   ((65 <=? code c) && (code c <=? 90)) ||
   ((48 <=? code c) && (code c <=? 57)) ||
   (code c =? 95) || (code c =? 45))%N.

(** What the scanner emits when a run of class characters ends; [run] holds
    the run with its most recent character first. *)
Definition flush (run : list ascii) : list string :=
  match run with
  | [] => []
  | _ => [String.string_of_list_ascii (rev run)]
  end.

(** [$regexFindAll] with regex [[a-zA-Z0-9_-]+], keeping each [match]:
    a left-to-right scan. *)
Fixpoint scan (run : list ascii) (text : string) : list string :=
  match text with
  | EmptyString => flush run
  | String c rest =>
      if is_word_char c then scan (c :: run) rest
      else flush run ++ scan [] rest
  end.

Definition regexFindAll (text : string) : list string := scan [] text.

(** The binary order on strings used by [$sort] on a string key. *)
Definition str_le (s1 s2 : string) : Prop := String.leb s1 s2 = true.

#[global] Instance str_le_dec s1 s2 : Decision (str_le s1 s2).
Proof. unfold str_le. apply _. Defined.

(** Python's [needle in haystack] on two strings. *)
Fixpoint contains (needle haystack : string) : bool :=
  String.prefix needle haystack ||
  match haystack with
  | EmptyString => false
  | String _ rest => contains needle rest
  end.

End Text.

(** ** Store: the stages of an aggregation pipeline *)

Module Store.

(** A document produced by a [$group] stage with [{'$sum': 1}]. *)
Record group_row := GroupRow { _id : string; count : nat }.

#[global] Instance group_row_eq_dec : EqDecision group_row.
Proof. solve_decision. Defined.

(** [{'$group': {'_id': key, 'count': {'$sum': 1}}}] over the keys of the
    incoming documents. *)
Definition group_count (keys : list string) : gmap string nat :=
  foldr (λ k m, <[k := S (default 0 (m !! k))]> m) ∅ keys.

(** The groups as a result list; a [$group] stage promises no order. *)
Definition group_rows (m : gmap string nat) : list group_row :=
  (λ kv, GroupRow kv.1 kv.2) <$> map_to_list m.

(** [{'$sort': {'count': -1, '_id': 1}}]. *)
Definition count_desc_id_asc (r1 r2 : group_row) : Prop :=
  count r2 < count r1 ∨ (count r1 = count r2 ∧ Text.str_le (_id r1) (_id r2)).

#[global] Instance count_desc_id_asc_dec r1 r2 :
  Decision (count_desc_id_asc r1 r2).
Proof. unfold count_desc_id_asc. apply _. Defined.

Definition sort_count_id : list group_row → list group_row :=
  merge_sort count_desc_id_asc.

(** The order of the store on a field that is a date or null: null sorts
    before every date. *)
Definition date_le (d1 d2 : option Z) : Prop :=
  match d1, d2 with
  | None, _ => True
  | Some _, None => False
  | Some a, Some b => (a ≤ b)%Z
  end.

#[global] Instance date_le_dec d1 d2 : Decision (date_le d1 d2).
Proof. destruct d1, d2; simpl; apply _. Defined.

End Store.

(** ** Query: the four operations of [phase2_query.py] *)

Module Query.
Import Text Store.

(** The [published] field: a native date (milliseconds since the epoch), a
    string still to be parsed, or null. *)
Inductive published_value :=
  | PDate (instant : Z)
  | PString (s : string)
  | PNull.

(** An article of the [articles] collection, with the field types of the
    data model; [content] may be null. *)
Record article := Article {
  id : string;
  content : option string;
  title : string;
  media_type : string;
  source : string;
  published : published_value
}.

Section Engine.

(** Operators of the document store and of Python's library that the
    handlers call: [$toDate] on a string ([None]: the conversion fails and
    the whole [aggregate] call raises), [$year], [$dateToString] with format
    [%Y-%m-%d], and whether [datetime.strptime(s, '%Y-%m-%d')] succeeds. *)
Variable toDate : string → option Z.
Variable year : Z → Z.
Variable dateToString : Z → string.
Variable strptime_ok : string → bool.

(** [{'$cond': {'if': {'$eq': [{'$type': '$published'}, 'date']},
               'then': '$published', 'else': {'$toDate': '$published'}}}];
    [Some None] is a null result. *)
Definition published_date (p : published_value) : option (option Z) :=
  match p with
  | PDate d => Some (Some d)
  | PString s => d ← toDate s; Some (Some d)
  | PNull => Some None
  end.

(** *** Option 1: most common words by media type *)

Inductive words_outcome :=
  | InvalidMediaType
  | NoWords
  | TopWords (result : list group_row).

(** The pipeline of [handle_common_words] and its [aggregate] call. *)
Definition common_words_aggregate
    (collection : list article) (media_type_in : string) : list group_row :=
  let matched :=
    filter (λ a, lower (media_type a) = media_type_in) collection in
  let text := (λ a, lower (default EmptyString (content a))) <$> matched in
  let words := regexFindAll <$> text in
  let unwound := mjoin words in
  sort_count_id (group_rows (group_count unwound)).

Definition handle_common_words
    (collection : list article) (input : string) : words_outcome :=
  let media_type := lower (strip input) in
  if decide (media_type ∈ ["news"; "blog"]) then
    let all_results := common_words_aggregate collection media_type in
    match all_results with
    | [] => NoWords
    | _ =>
        let top_5 := take 5 all_results in
        if decide (5 ≤ length top_5) then
          match top_5 !! 4 with
          | Some fifth =>
              let fifth_count := count fifth in
              let included_words : gset string :=
                list_to_set (_id <$> take 4 top_5) in
              let tied_words :=
                filter (λ item, count item = fifth_count
                                ∧ _id item ∉ included_words) all_results in
              TopWords (take 4 top_5 ++ tied_words)
          | None => TopWords top_5
          end
        else TopWords top_5
    end
  else InvalidMediaType.

(** *** Option 2: article count difference between news and blogs *)

Record day_projection := DayProjection {
  mediaTypeLower : string;
  dateOnly : option string
}.

Inductive verdict :=
  | NewsMore (diff : nat)
  | BlogsMore (diff : nat)
  | SameNumber.

Inductive count_outcome :=
  | InvalidDate
  | CountRaised
  | NoArticles
  | Counts (news_count blog_count : nat) (v : verdict).

Definition project_day (a : article) : option day_projection :=
  d ← published_date (published a);
  Some (DayProjection (lower (media_type a)) (dateToString <$> d)).

Definition article_count_aggregate
    (collection : list article) (date_str : string)
    : option (list group_row) :=
  projected ← mapM project_day collection;
  let matched :=
    filter (λ p, dateOnly p = Some date_str
                 ∧ mediaTypeLower p ∈ ["news"; "blog"]) projected in
  Some (group_rows (group_count (mediaTypeLower <$> matched))).

(** The loop that assigns the two counters from the groups: one step, and
    the loop from [news_count = 0], [blog_count = 0]. *)
Definition count_step (acc : nat * nat) (item : group_row) : nat * nat :=
  if decide (_id item = "news") then (count item, acc.2)
  else if decide (_id item = "blog") then (acc.1, count item)
  else acc.

Definition assign_counts (results : list group_row) : nat * nat :=
  foldl count_step (0, 0) results.

Definition handle_article_count
    (collection : list article) (input : string) : count_outcome :=
  let date_str := strip input in
  if strptime_ok date_str then
    match article_count_aggregate collection date_str with
    | None => CountRaised
    | Some [] => NoArticles
    | Some results =>
        let '(news_count, blog_count) := assign_counts results in
        Counts news_count blog_count
          (if decide (blog_count < news_count)
           then NewsMore (news_count - blog_count)
           else if decide (news_count < blog_count)
           then BlogsMore (blog_count - news_count)
           else SameNumber)
    end
  else InvalidDate.

(** *** Option 3: top sources of 2015 *)

Inductive sources_outcome :=
  | SourcesRaised
  | NoSources
  | TopSources (result : list group_row).

Definition year_of (a : article) : option (article * option Z) :=
  d ← published_date (published a); Some (a, year <$> (d : option Z)).

Definition top_sources_aggregate
    (collection : list article) : option (list group_row) :=
  with_year ← mapM year_of collection;
  let matched := filter (λ ay, ay.2 = Some 2015%Z) with_year in
  Some (sort_count_id
          (group_rows (group_count ((λ ay, source ay.1) <$> matched)))).

Definition handle_top_sources_2015
    (collection : list article) : sources_outcome :=
  match top_sources_aggregate collection with
  | None => SourcesRaised
  | Some [] => NoSources
  | Some all_results =>
      let top_5 := take 5 all_results in
      if decide (5 ≤ length top_5) then
        match top_5 !! 4 with
        | Some fifth =>
            let fifth_count := count fifth in
            let included_sources : gset string :=
              list_to_set (_id <$> take 4 top_5) in
            let tied_sources :=
              filter (λ item, count item = fifth_count
                              ∧ _id item ∉ included_sources) all_results in
            TopSources (take 4 top_5 ++ tied_sources)
        | None => TopSources top_5
        end
      else TopSources top_5
  end.

(** *** Option 4: most recent articles of a source *)

(** The documents after the first [$project] stage. *)
Record dated_article := DatedArticle {
  d_title : string;
  d_published : published_value;
  d_publishedDate : option Z;
  dateOnly4 : option string
}.

(** The documents after the final [$project] stage. *)
Record recent_article := RecentArticle {
  r_title : string;
  publishedDate : option Z;
  date : option string
}.

#[global] Instance recent_article_eq_dec : EqDecision recent_article.
Proof. solve_decision. Defined.

Inductive recent_outcome :=
  | EmptySourceName
  | RecentRaised
  | SourceNotFound
  | RecentArticles (result : list recent_article).

Definition project_dated (a : article) : option dated_article :=
  d ← published_date (published a);
  d' ← published_date (published a);
  Some (DatedArticle (title a) (published a) d (dateToString <$> d')).

(** [{'$sort': {'publishedDate': -1}}]: the only sort key is the date. *)
Definition publishedDate_desc (a1 a2 : dated_article) : Prop :=
  date_le (d_publishedDate a2) (d_publishedDate a1).

#[global] Instance publishedDate_desc_dec a1 a2 :
  Decision (publishedDate_desc a1 a2).
Proof. unfold publishedDate_desc. apply _. Defined.

Definition project_final (a : dated_article) : recent_article :=
  RecentArticle (d_title a) (d_publishedDate a) (dateOnly4 a).

Definition recent_by_source_aggregate
    (collection : list article) (source_literal : string)
    : option (list recent_article) :=
  let matched :=
    filter (λ a, lower (source a) = source_literal) collection in
  projected ← mapM project_dated matched;
  let sorted := merge_sort publishedDate_desc projected in
  Some (project_final <$> sorted).

(** The selection of [handle_recent_by_source]; [if fifth_published_date:]
    is false exactly for a null date (a [datetime] is always truthy). *)
Definition select_recent (all_articles : list recent_article)
    : list recent_article :=
  let top_5 := take 5 all_articles in
  if decide (5 ≤ length top_5) then
    match top_5 !! 4 with
    | Some fifth =>
        match publishedDate fifth with
        | Some fifth_published_date =>
            let included_keys : gset (string * option Z) :=
              list_to_set
                ((λ article, (r_title article, publishedDate article))
                   <$> take 4 top_5) in
            let tied_articles :=
              filter (λ article,
                        publishedDate article = Some fifth_published_date
                        ∧ (r_title article, publishedDate article)
                            ∉ included_keys) all_articles in
            take 4 top_5 ++ tied_articles
        | None => top_5
        end
    | None => top_5
    end
  else top_5.

Definition handle_recent_by_source
    (collection : list article) (input : string) : recent_outcome :=
  let source_name := strip input in
  if decide (source_name = EmptyString) then EmptySourceName
  else
    let source_literal := lower source_name in
    match recent_by_source_aggregate collection source_literal with
    | None => RecentRaised
    | Some [] => SourceNotFound
    | Some all_articles => RecentArticles (select_recent all_articles)
    end.

(** The lines printed for a result: title and display day. *)
Definition printed (result : list recent_article)
    : list (string * option string) :=
  (λ article, (r_title article, date article)) <$> result.

End Engine.

End Query.

(** ** Loader: the ingestion loop of [load-json.py] *)

Module Loader.
Import Text.

(** What [json.loads] returns. *)
#[local] Set Warnings "-register-all".
Inductive json :=
  | JNull
  | JBool (b : bool)
  | JNumber (n : Z)
  | JString (s : string)
  | JArray (items : list json)
  | JObject (members : list (string * json)).

(** A line of the input file, by what [line.strip()] and [json.loads] make
    of it: blank after stripping, rejected with [JSONDecodeError], or
    parsed. *)
Inductive line :=
  | Blank
  | Malformed
  | Parsed (document : json).

Definition BATCH_SIZE : nat := 1000.

Definition required_fields : list string :=
  ["id"; "content"; "title"; "media-type"; "source"; "published"].

Definition is_JString (field : string) (v : json) : bool :=
  match v with
  | JString s => bool_decide (s = field)
  | _ => false
  end.

(** Python's [field in document]; [None] is a [TypeError]. *)
Definition py_in (field : string) (document : json) : option bool :=
  match document with
  | JObject members => Some (bool_decide (field ∈ members.*1))
  | JArray items => Some (existsb (is_JString field) items)
  | JString s => Some (contains field s)
  | JNull | JBool _ | JNumber _ => None
  end.

(** [all(field in document for field in required_fields)], which stops at
    the first field that is absent. *)
Fixpoint all_in (fields : list string) (document : json) : option bool :=
  match fields with
  | [] => Some true
  | field :: rest =>
      match py_in field document with
      | None => None
      | Some false => Some false
      | Some true => all_in rest document
      end
  end.

(** What the run prints, on either stream. *)
Inductive event :=
  | WarnMissingFields (line_num : nat)
  | WarnInvalidJson (line_num : nat)
  | WarnLineError (line_num : nat)
  | InsertedBatch (batch_count size : nat)
  | InsertedFinalBatch (batch_count size : nat)
  | Completed (total_documents : nat)
  | ErrorDuringProcessing.

Inductive exit_status := Exit0 | Exit1.

Section Run.

(** The [articles] collection of the store and its [insert_many]; [None]
    is a raised exception. *)
Variable collection : Type.
Variable insert_many : collection → list json → option collection.

(** The variables of the loop, the store, the arguments of the
    [insert_many] calls made so far, and the printed lines. *)
Record state := State {
  batch : list json;
  total_documents : nat;
  batch_count : nat;
  articles : collection;
  calls : list (list json);
  output : list event
}.

Definition warn (st : state) (e : event) : state :=
  State (batch st) (total_documents st) (batch_count st) (articles st)
        (calls st) (output st ++ [e]).

(** The body of the [for] loop for one line. *)
Definition process_line (st : state) (line_num : nat) (ln : line) : state :=
  match ln with
  | Blank => st
  | Malformed => warn st (WarnInvalidJson line_num)
  | Parsed document =>
      match all_in required_fields document with
      | None => warn st (WarnLineError line_num)
      | Some false => warn st (WarnMissingFields line_num)
      | Some true =>
          let batch' := batch st ++ [document] in
          if decide (BATCH_SIZE ≤ length batch') then
            match insert_many (articles st) batch' with
            | Some articles' =>
                State [] (total_documents st + length batch')
                      (S (batch_count st)) articles'
                      (calls st ++ [batch'])
                      (output st ++
                         [InsertedBatch (S (batch_count st)) (length batch')])
            | None =>
                State batch' (total_documents st) (batch_count st)
                      (articles st) (calls st ++ [batch'])
                      (output st ++ [WarnLineError line_num])
            end
          else
            State batch' (total_documents st) (batch_count st)
                  (articles st) (calls st) (output st)
      end
  end.

(** [for line_num, line in enumerate(file_handle, 1)]. *)
Fixpoint read_lines (st : state) (line_num : nat) (lines : list line)
    : state :=
  match lines with
  | [] => st
  | ln :: rest => read_lines (process_line st line_num ln) (S line_num) rest
  end.

(** The flush of the last batch and the final report. *)
Definition finish (st : state) : state * exit_status :=
  match batch st with
  | [] => (warn st (Completed (total_documents st)), Exit0)
  | _ =>
      match insert_many (articles st) (batch st) with
      | Some articles' =>
          let total := total_documents st + length (batch st) in
          (State (batch st) total (S (batch_count st)) articles'
                 (calls st ++ [batch st])
                 (output st ++
                    [InsertedFinalBatch (S (batch_count st))
                                        (length (batch st));
                     Completed total]),
           Exit0)
      | None =>
          (State (batch st) (total_documents st) (batch_count st)
                 (articles st) (calls st ++ [batch st])
                 (output st ++ [ErrorDuringProcessing]),
           Exit1)
      end
  end.

(** [main] from the start of the loop, on a fresh collection. *)
Definition main (fresh : collection) (lines : list line)
    : state * exit_status :=
  finish (read_lines (State [] 0 0 fresh [] []) 1 lines).

End Run.

(** A store that accepts every batch: the collection is the list of the
    documents inserted so far. *)
Definition list_insert_many (c : list json) (docs : list json)
    : option (list json) := Some (c ++ docs).

End Loader.

(** ** Calendar: an instance of the date operators, for the examples *)

Module Calendar.

Local Open Scope Z_scope.

(** Day number (days since 1970-01-01) to year, month and day of the
    proleptic Gregorian calendar. *)
Definition civil (days : Z) : Z * Z * Z :=
  let z := days + 719468 in
  let era := z / 146097 in
  let doe := z - era * 146097 in
  let yoe := (doe - doe / 1460 + doe / 36524 - doe / 146096) / 365 in
  let doy := doe - (365 * yoe + yoe / 4 - yoe / 100) in
  let mp := (5 * doy + 2) / 153 in
  let d := doy - (153 * mp + 2) / 5 + 1 in
  let m := if mp <? 10 then mp + 3 else mp - 9 in
  let y := yoe + era * 400 in
  (if m <=? 2 then y + 1 else y, m, d).

Definition day_ms : Z := 86400000.

Definition year (instant : Z) : Z := (civil (instant / day_ms)).1.1.

Definition digit (n : Z) : ascii := ascii_of_N (48 + Z.to_N (n mod 10)).

Definition pad2 (n : Z) : string :=
  String (digit (n / 10)) (String (digit n) EmptyString).

Definition pad4 (n : Z) : string :=
  String (digit (n / 1000)) (String (digit (n / 100)) (pad2 n)).

Definition dateToString (instant : Z) : string :=
  let '(y, m, d) := civil (instant / day_ms) in
  pad4 y +:+ "-" +:+ pad2 m +:+ "-" +:+ pad2 d.

(** Year, month and day to day number. *)
Definition days_from_civil (y m d : Z) : Z :=
  let y := if m <=? 2 then y - 1 else y in
  let era := y / 400 in
  let yoe := y - era * 400 in
  let doy := (153 * (if m >? 2 then m - 3 else m + 9) + 2) / 5 + d - 1 in
  let doe := yoe * 365 + yoe / 4 - yoe / 100 + doy in
  era * 146097 + doe - 719468.

Definition digit_value (c : ascii) : option Z :=
  let n := Z.of_N (N_of_ascii c) in
  if (48 <=? n) && (n <=? 57) then Some (n - 48) else None.

Fixpoint number (acc : Z) (cs : list ascii) : option Z :=
  match cs with
  | [] => Some acc
  | c :: cs' => v ← digit_value c; number (10 * acc + v) cs'
  end.

(** Strings of the form [YYYY-MM-DDTHH:MM:SSZ]; everything else is a
    conversion failure here. *)
Definition toDate (s : string) : option Z :=
  match String.list_ascii_of_string s with
  | [y1; y2; y3; y4; "-"%char; m1; m2; "-"%char; d1; d2; "T"%char;
     h1; h2; ":"%char; n1; n2; ":"%char; s1; s2; "Z"%char] =>
      y ← number 0 [y1; y2; y3; y4];
      m ← number 0 [m1; m2];
      d ← number 0 [d1; d2];
      h ← number 0 [h1; h2];
      n ← number 0 [n1; n2];
      sec ← number 0 [s1; s2];
      Some (days_from_civil y m d * day_ms
            + ((h * 60 + n) * 60 + sec) * 1000)
  | _ => None
  end.

(** [datetime.strptime(s, '%Y-%m-%d')] on ASCII text.  The format compiles
    to the regular expression
    [(\d\d\d\d)-(1[0-2]|0[1-9]|[1-9])-(3[0-1]|[1-2]\d|0[1-9]|[1-9]| [1-9])],
    matched at the start of the string with the alternatives tried in order;
    text left over after the match is an error, and so is a date that
    [datetime] refuses: year 0 or a day that the month does not have. *)
Definition in_range (lo hi : Z) (c : ascii) : bool :=
  let n := Z.of_N (N_of_ascii c) in (lo <=? n) && (n <=? hi).

Definition value (c : ascii) : Z := Z.of_N (N_of_ascii c) - 48.

(** [1[0-2]|0[1-9]|[1-9]] followed by the hyphen of the format. *)
Definition month_field (cs : list ascii) : option (Z * list ascii) :=
  let two :=
    match cs with
    | m1 :: m2 :: "-"%char :: rest =>
        if (in_range 49 49 m1 && in_range 48 50 m2)
           || (in_range 48 48 m1 && in_range 49 57 m2)
        then Some (10 * value m1 + value m2, rest) else None
    | _ => None
    end in
  match two with
  | Some r => Some r
  | None =>
      match cs with
      | m1 :: "-"%char :: rest =>
          if in_range 49 57 m1 then Some (value m1, rest) else None
      | _ => None
      end
  end.

(** [3[0-1]|[1-2]\d|0[1-9]|[1-9]| [1-9]] at the end of the format: the
    first alternative that matches is taken, then nothing may be left. *)
Definition day_field (cs : list ascii) : option Z :=
  let two :=
    match cs with
    | d1 :: d2 :: rest =>
        if (in_range 51 51 d1 && in_range 48 49 d2)
           || (in_range 49 50 d1 && in_range 48 57 d2)
           || (in_range 48 48 d1 && in_range 49 57 d2)
        then Some (10 * value d1 + value d2, rest) else None
    | _ => None
    end in
  let matched :=
    match two with
    | Some r => Some r
    | None =>
        match cs with
        | d1 :: rest =>
            if in_range 49 57 d1 then Some (value d1, rest)
            else
              match rest with
              | d2 :: rest' =>
                  if in_range 32 32 d1 && in_range 49 57 d2
                  then Some (value d2, rest') else None
              | [] => None
              end
        | [] => None
        end
    end in
  match matched with
  | Some (d, []) => Some d
  | _ => None
  end.

Definition is_leap (y : Z) : bool :=
  (y mod 4 =? 0) && (negb (y mod 100 =? 0) || (y mod 400 =? 0)).

Definition days_in_month (y m : Z) : Z :=
  if m =? 2 then (if is_leap y then 29 else 28)
  else if (m =? 4) || (m =? 6) || (m =? 9) || (m =? 11) then 30
  else 31.

Definition strptime (s : string) : option (Z * Z * Z) :=
  match String.list_ascii_of_string s with
  | y1 :: y2 :: y3 :: y4 :: "-"%char :: rest =>
      y ← number 0 [y1; y2; y3; y4];
      '(m, rest') ← month_field rest;
      d ← day_field rest';
      if (1 <=? y) && (d <=? days_in_month y m) then Some (y, m, d) else None
  | _ => None
  end.

(** Whether [strptime] returns rather than raises [ValueError]. *)
Definition strptime_ok (s : string) : bool :=
  bool_decide (is_Some (strptime s)).

(** [date_obj.strftime('%Y-%m-%d')]: the day in the form of the canonical
    day strings. *)
Definition strftime (date : Z * Z * Z) : string :=
  let '(y, m, d) := date in pad4 y +:+ "-" +:+ pad2 m +:+ "-" +:+ pad2 d.

End Calendar.

(** ** Examples: small corpora for the worked examples *)

Module Examples.
Import Query.

Definition sept1 : Z := 1441065600000.   (* 2015-09-01T00:00:00Z *)

(** Six words for the selector [news], the last two tied with one
    occurrence each; six sources in 2015, the last three tied. *)
Definition sample : list article :=
  [ Article "1" (Some "alpha alpha alpha beta beta gamma") "One"
            "news" "A" (PString "2015-09-01T10:00:00Z");
    Article "2" (Some "Alpha. beta, GAMMA delta") "Two"
            "NEWS" "A" (PDate sept1);
    Article "3" (Some "alpha beta gamma delta epsilon zeta") "Three"
            "News" "A" (PString "2015-09-02T08:30:00Z");
    Article "4" (Some "eta theta") "Four"
            "blog" "B" (PDate sept1);
    Article "5" None "Five"
            "blog" "B" (PString "2015-12-31T23:59:59Z");
    Article "6" (Some "") "Six"
            "blog" "C" (PDate sept1);
    Article "7" (Some "iota") "Seven"
            "blog" "C" (PDate (sept1 + 1000));
    Article "8" (Some "kappa") "Eight"
            "video" "D" (PDate sept1);
    Article "9" (Some "lambda") "Nine"
            "video" "E" (PDate sept1);
    Article "10" (Some "mu") "Ten"
            "video" "F" (PString "2015-01-01T00:00:00Z");
    Article "11" (Some "alpha") "Eleven"
            "news" "G" (PString "2014-12-31T23:59:59Z") ].

(** The same corpus with every [published] stored as a native date. *)
Definition sample_native : list article :=
  [ Article "1" (Some "alpha alpha alpha beta beta gamma") "One"
            "news" "A" (PDate 1441101600000);
    Article "2" (Some "Alpha. beta, GAMMA delta") "Two"
            "NEWS" "A" (PDate sept1);
    Article "3" (Some "alpha beta gamma delta epsilon zeta") "Three"
            "News" "A" (PDate 1441182600000);
    Article "4" (Some "eta theta") "Four"
            "blog" "B" (PDate sept1);
    Article "5" None "Five"
            "blog" "B" (PDate 1451606399000);
    Article "6" (Some "") "Six"
            "blog" "C" (PDate sept1);
    Article "7" (Some "iota") "Seven"
            "blog" "C" (PDate (sept1 + 1000));
    Article "8" (Some "kappa") "Eight"
            "video" "D" (PDate sept1);
    Article "9" (Some "lambda") "Nine"
            "video" "E" (PDate sept1);
    Article "10" (Some "mu") "Ten"
            "video" "F" (PDate 1420070400000);
    Article "11" (Some "alpha") "Eleven"
            "news" "G" (PDate 1420070399000) ].

Definition bbc (t : string) (p : published_value) : article :=
  Article t (Some "") t "news" "BBC" p.

(** Six articles of one source, the fifth and sixth at the same instant. *)
Definition recent_dated : list article :=
  [ bbc "a" (PDate 6000); bbc "b" (PDate 5000); bbc "c" (PDate 4000);
    bbc "d" (PDate 3000); bbc "e" (PDate 2000); bbc "f" (PDate 2000) ].

(** Six articles of one source, the fifth and sixth without a date. *)
Definition recent_null_tail : list article :=
  [ bbc "a" (PDate 5000); bbc "b" (PDate 4000); bbc "c" (PDate 3000);
    bbc "d" (PDate 2000); bbc "e" PNull; bbc "f" PNull ].

(** Two articles that differ in the letter case of [media-type] and of
    [source]. *)
Definition case_pair : list article :=
  [ Article "1" (Some "cats") "Upper" "NEWS" "BBC" (PDate sept1);
    Article "2" (Some "cats") "Lower" "news" "bbc" (PDate (sept1 + 1000)) ].

(** Three news and three blog articles on one day. *)
Definition balanced_day : list article :=
  [ Article "1" (Some "") "n1" "news" "A" (PDate sept1);
    Article "2" (Some "") "b1" "blog" "A" (PString "2015-09-01T01:00:00Z");
    Article "3" (Some "") "n2" "News" "B" (PDate (sept1 + 5000));
    Article "4" (Some "") "b2" "BLOG" "B" (PDate (sept1 + 6000));
    Article "5" (Some "") "n3" "NEWS" "C" (PString "2015-09-01T23:59:59Z");
    Article "6" (Some "") "b3" "blog" "C" (PDate (sept1 + 7000));
    Article "7" (Some "") "v1" "video" "C" (PDate sept1);
    Article "8" (Some "") "n4" "news" "C" PNull ].

(** One article, the content of the tokenization example. *)
Definition cats : list article :=
  [ Article "1" (Some "Cats. cats, CATS!") "Cats" "News" "A" (PDate sept1) ].

(** Two articles of one source published at the same instant, stored in
    either order. *)
Definition same_instant_ab : list article :=
  [ bbc "first" (PDate sept1); bbc "second" (PDate sept1) ].

Definition same_instant_ba : list article :=
  [ bbc "second" (PDate sept1); bbc "first" (PDate sept1) ].

End Examples.

(** ** Spec: the notions of the specification that the properties compare
    the code with *)

Module Spec.
Import Text Store Query.

(** Tokenization, in the words of the specification: a token is a maximal
    run of characters of the class; tokens do not overlap and are found left
    to right.  [tokens_of text toks]: [text] is a gap without any class
    character, or a gap, then a token, then a rest that does not continue
    the token, tokenized in the same way. *)
Definition gap (g : string) : Prop :=
  Forall (λ c, is_word_char c = false) (String.list_ascii_of_string g).

Definition token (w : string) : Prop :=
  w ≠ EmptyString ∧
  Forall (λ c, is_word_char c = true) (String.list_ascii_of_string w).

Definition ends_token (rest : string) : Prop :=
  match rest with
  | EmptyString => True
  | String c _ => is_word_char c = false
  end.

Inductive tokens_of : string → list string → Prop :=
  | tokens_none g : gap g → tokens_of g []
  | tokens_next g w rest toks :
      gap g → token w → ends_token rest → tokens_of rest toks →
      tokens_of (g +:+ w +:+ rest) (w :: toks).

(** How often [w] occurs in a list of tokens. *)
Definition occurrences (w : string) (ws : list string) : nat :=
  length (filter (λ x, x = w) ws).

(** Top-N-With-Ties, in the words of the specification, for a list of more
    than five entries: positions 1-4 in their order, then every entry of the
    full list whose primary key is that of the 5th entry and whose identity
    key is not that of one of the first four. *)
Definition top5_with_ties {A K I} `{EqDecision K, EqDecision I}
    (key : A → K) (ident : A → I) (l : list A) : list A :=
  match l !! 4 with
  | Some fifth =>
      take 4 l ++
      filter (λ e, key e = key fifth ∧ ident e ∉ ident <$> take 4 l) l
  | None => l
  end.

(** The identity key of Op4: title and normalized instant. *)
Definition title_and_instant (a : recent_article) : string * option Z :=
  (r_title a, publishedDate a).

(** What a [$sort] stage promises: the documents of the input, in an order
    that respects the sort key.  The order among documents with equal keys
    is left to the store. *)
Definition sort_contract {A} (R : relation A) (input output : list A)
    : Prop :=
  output ≡ₚ input ∧ Sorted R output.

(** Two articles that differ at most in how [published] is stored: as a
    native date in one and as a string that parses to that date in the
    other. *)
Inductive same_instant (toDate : string → option Z)
    : published_value → published_value → Prop :=
  | same_stored p : same_instant toDate p p
  | native_string d s :
      toDate s = Some d → same_instant toDate (PDate d) (PString s)
  | string_native d s :
      toDate s = Some d → same_instant toDate (PString s) (PDate d).

Definition same_article (toDate : string → option Z) (a b : article)
    : Prop :=
  id a = id b ∧ content a = content b ∧ title a = title b ∧
  media_type a = media_type b ∧ source a = source b ∧
  same_instant toDate (published a) (published b).

(** The canonical day of an article: the [YYYY-MM-DD] string of its
    normalized instant, if it has one. *)
Definition canonical_day (toDate : string → option Z)
    (dateToString : Z → string) (a : article) : option string :=
  match published_date toDate (published a) with
  | Some (Some t) => Some (dateToString t)
  | _ => None
  end.

(** An article of the given canonical day whose media type is, up to letter
    case, the given lowercase kind. *)
Definition published_on (toDate : string → option Z)
    (dateToString : Z → string) (day kind : string) (a : article) : Prop :=
  canonical_day toDate dateToString a = Some day
  ∧ lower (media_type a) = kind.

(** What Op2 keeps of an article, and the keys that reach its group stage,
    for a collection whose [published] values all resolve. *)
Definition day_of (toDate : string → option Z) (dateToString : Z → string)
    (a : article) : day_projection :=
  DayProjection (lower (media_type a)) (canonical_day toDate dateToString a).

Definition day_keys (toDate : string → option Z) (dateToString : Z → string)
    (collection : list article) (date_str : string) : list string :=
  mediaTypeLower <$>
    filter (λ p, dateOnly p = Some date_str
                 ∧ mediaTypeLower p ∈ ["news"; "blog"])
           (day_of toDate dateToString <$> collection).

(** An article whose normalized instant falls in the calendar year 2015. *)
Definition in_2015 (toDate : string → option Z) (year : Z → Z)
    (a : article) : Prop :=
  match published_date toDate (published a) with
  | Some (Some t) => year t = 2015%Z
  | _ => False
  end.

#[global] Instance in_2015_dec toDate year a : Decision (in_2015 toDate year a).
Proof.
  unfold in_2015. destruct (published_date toDate (published a)) as [[t|]|];
    apply _.
Defined.

(** The same article with the letter case of one field removed. *)
Definition lower_media_type (a : article) : article :=
  Article (id a) (content a) (title a) (lower (media_type a)) (source a)
          (published a).

Definition lower_source (a : article) : article :=
  Article (id a) (content a) (title a) (media_type a) (lower (source a))
          (published a).


End Spec.

Module LoaderSpec.
Import Loader.

(** The records of the input that pass the validation of the loop, in the
    order of the file. *)
Definition accepted_line (ln : line) : list json :=
  match ln with
  | Parsed document =>
      match all_in required_fields document with
      | Some true => [document]
      | _ => []
      end
  | _ => []
  end.

Definition accepted (lines : list line) : list json :=
  lines ≫= accepted_line.

(** A line that fails JSON parsing, or parses to an object that lacks one of
    the required fields. *)
Definition rejected (ln : line) : bool :=
  match ln with
  | Malformed => true
  | Parsed (JObject members) =>
      negb (forallb (λ field, bool_decide (field ∈ members.*1))
                    required_fields)
  | _ => false
  end.

(** A document that passes the validation of the loop. *)
Definition validated (document : json) : Prop :=
  all_in required_fields document = Some true.

(** Everything a run does except what it prints. *)
Definition effect {collection : Type} (st : state collection)
    : list json * nat * nat * collection * list (list json) :=
  (batch _ st, total_documents _ st, batch_count _ st, articles _ st,
   calls _ st).

(** The batch sizes that the run reports. *)
Definition reported_size (e : event) : option nat :=
  match e with
  | InsertedBatch _ size | InsertedFinalBatch _ size => Some size
  | _ => None
  end.

Definition reported_sizes (output : list event) : list nat :=
  omap reported_size output.

(** What holds between two lines of the file when the store is reliable:
    the flushed batches followed by the current batch are the records
    accepted so far, every flushed batch is full, the current one is not,
    and the counters and the printed sizes follow the flushed batches. *)
Definition batch_invariant {collection : Type} (st : state collection)
    (docs : list json) : Prop :=
  mjoin (calls _ st) ++ batch _ st = docs
  ∧ Forall (λ b, length b = BATCH_SIZE) (calls _ st)
  ∧ length (batch _ st) < BATCH_SIZE
  ∧ total_documents _ st = BATCH_SIZE * length (calls _ st)
  ∧ batch_count _ st = length (calls _ st)
  ∧ reported_sizes (output _ st) = length <$> calls _ st.

(** A store whose [insert_many] never raises. *)
Definition reliable {collection : Type}
    (insert_many : collection → list json → option collection) : Prop :=
  ∀ c docs, is_Some (insert_many c docs).

(** A document with all six required fields, as a parsed line. *)
Definition full_record : json :=
  JObject [("id", JNumber 1); ("content", JString "Cats."); ("title", JString "t");
           ("media-type", JString "news"); ("source", JString "A");
           ("published", JString "2015-09-01T00:00:00Z")].

Definition no_title : json :=
  JObject [("id", JNumber 2); ("content", JString "x");
           ("media-type", JString "news"); ("source", JString "A");
           ("published", JString "2015-09-01T00:00:00Z")].

(** A line that holds a JSON string naming the six required fields, and one
    that holds a JSON array of the six names. *)
Definition names_string : json :=
  JString "id content title media-type source published".

Definition names_array : json :=
  JArray [JString "id"; JString "content"; JString "title";
          JString "media-type"; JString "source"; JString "published"].

(** 2500 valid lines with a malformed line, a blank line and a record
    without title in between. *)
Definition file_2500 : list line :=
  replicate 1200 (Parsed full_record)
  ++ [Malformed; Blank; Parsed no_title]
  ++ replicate 1300 (Parsed full_record).

End LoaderSpec.

(** ** Session: the menu loop of [phase2_query.py] *)

Module Session.
Import Text Store Query.

(** What the loop prints for one iteration. *)
Inductive screen :=
  | ShowMenu
  | ShowWords (o : words_outcome)
  | ShowCounts (o : count_outcome)
  | ShowSources (o : sources_outcome)
  | ShowRecent (o : recent_outcome)
  | InvalidChoice
  | Goodbye.

(** How the loop ends: by choice 5, by [input()] raising [EOFError] at the
    end of the input, or by an exception of [collection.aggregate], which
    nothing in the loop catches. *)
Inductive session_end := Exited | InputEnded | Crashed.

Section Loop.
Variable toDate : string → option Z.
Variable year : Z → Z.
Variable dateToString : Z → string.
Variable strptime_ok : string → bool.
Variable collection : list article.

(** [while True:] of [main], over the lines that [input()] will return.
    The queries only read the collection. *)
Fixpoint menu_loop (inputs : list string) : list screen * session_end :=
  match inputs with
  | [] => ([ShowMenu], InputEnded)
  | line :: rest =>
      let choice := strip line in
      if decide (choice = "1") then
        match rest with
        | [] => ([ShowMenu], InputEnded)
        | answer :: rest' =>
            let o := handle_common_words collection answer in
            let r := menu_loop rest' in
            (ShowMenu :: ShowWords o :: r.1, r.2)
        end
      else if decide (choice = "2") then
        match rest with
        | [] => ([ShowMenu], InputEnded)
        | answer :: rest' =>
            match handle_article_count toDate dateToString strptime_ok
                    collection answer with
            | CountRaised => ([ShowMenu], Crashed)
            | o =>
                let r := menu_loop rest' in
                (ShowMenu :: ShowCounts o :: r.1, r.2)
            end
        end
      else if decide (choice = "3") then
        match handle_top_sources_2015 toDate year collection with
        | SourcesRaised => ([ShowMenu], Crashed)
        | o =>
            let r := menu_loop rest in
            (ShowMenu :: ShowSources o :: r.1, r.2)
        end
      else if decide (choice = "4") then
        match rest with
        | [] => ([ShowMenu], InputEnded)
        | answer :: rest' =>
            match handle_recent_by_source toDate dateToString
                    collection answer with
            | RecentRaised => ([ShowMenu], Crashed)
            | o =>
                let r := menu_loop rest' in
                (ShowMenu :: ShowRecent o :: r.1, r.2)
            end
        end
      else if decide (choice = "5") then ([ShowMenu; Goodbye], Exited)
      else
        let r := menu_loop rest in
        (ShowMenu :: InvalidChoice :: r.1, r.2)
  end.

End Loop.
End Session.

(** ** Reload: [main] of [load-json.py] from the drop of the old collection *)

Module Reload.
Import Loader.

Section Drop.

(** The database handle: whether it has an [articles] collection, the drop
    of that collection, and [insert_many] into it. *)
Variable db : Type.
Variable has_articles : db → bool.
Variable drop : db → db.
Variable insert_many : db → list json → option db.

(** [if 'articles' in db.list_collection_names(): db['articles'].drop()],
    then the loop and the final flush; the boolean tells whether "Dropped
    existing 'articles' collection" was printed. *)
Definition load (d : db) (lines : list line)
    : bool * (state db * exit_status) :=
  if has_articles d
  then (true, main db insert_many (drop d) lines)
  else (false, main db insert_many d lines).

End Drop.

(** A database in which [articles] is absent or holds a list of documents,
    and whose [insert_many] always succeeds. *)
Definition list_has_articles (d : option (list json)) : bool :=
  bool_decide (is_Some d).

Definition list_drop (d : option (list json)) : option (list json) := None.

Definition list_db_insert_many (d : option (list json)) (docs : list json)
    : option (option (list json)) :=
  Some (Some (default [] d ++ docs)).

Definition list_contents (d : option (list json)) : list json :=
  default [] d.

(** A store whose [insert_many] raises on every call. *)
Definition failing_insert_many (c : list json) (docs : list json)
    : option (list json) := None.

(** A store whose [insert_many], as the driver's does, raises when a
    document of the batch is not an object, and appends the batch
    otherwise. *)
Definition is_object (document : json) : bool :=
  match document with
  | JObject _ => true
  | _ => false
  end.

Definition object_insert_many (c : list json) (docs : list json)
    : option (list json) :=
  if forallb is_object docs then Some (c ++ docs) else None.

End Reload.

(** ** Further notions that the properties use *)

Module SpecMore.
Import Text Store Query Loader LoaderSpec.

(** Text typed at a prompt that consists of ASCII characters: the text on
    which [strip] and [lower] are Python's [str.strip] and [str.lower].
    Beyond ASCII Python also strips other Unicode white space and lowercases
    other letters, which [strip] and [lower] leave as they are. *)
Definition ascii_text (s : string) : Prop :=
  Forall (λ c, (code c < 128)%N) (String.list_ascii_of_string s).

#[global] Instance ascii_text_dec s : Decision (ascii_text s).
Proof. unfold ascii_text. apply _. Defined.

(** An article whose [published] is a string that [$toDate] rejects. *)
Definition unresolvable (toDate : string → option Z) (a : article) : Prop :=
  published_date toDate (published a) = None.

(** What Op4 returns for one article. *)
Definition recent_of (toDate : string → option Z) (dateToString : Z → string)
    (a : article) : option recent_article :=
  d ← published_date toDate (published a);
  Some (RecentArticle (title a) d (dateToString <$> (d : option Z))).

(** Most recent first, articles without a date last. *)
Definition recent_first (a1 a2 : recent_article) : Prop :=
  date_le (publishedDate a2) (publishedDate a1).

(** A lowercase letter, a digit, an underscore or a hyphen. *)
Definition is_lower_word_char (c : ascii) : bool :=
  (((97 <=? code c) && (code c <=? 122)) ||
   ((48 <=? code c) && (code c <=? 57)) ||
   (code c =? 95) || (code c =? 45))%N.

(** The batch numbers that the run reports. *)
Definition reported_number (e : event) : option nat :=
  match e with
  | InsertedBatch k _ | InsertedFinalBatch k _ => Some k
  | _ => None
  end.

Definition reported_numbers (output : list event) : list nat :=
  omap reported_number output.

(** What holds between two lines of the file whatever the store does: the
    pending batch is the accepted records not yet counted as inserted, and
    the counters follow the reported inserts. *)
Definition ledger {collection : Type} (st : state collection)
    (docs : list json) : Prop :=
  total_documents _ st ≤ length docs
  ∧ batch _ st = drop (total_documents _ st) docs
  ∧ total_documents _ st = sum_list (reported_sizes (output _ st))
  ∧ reported_numbers (output _ st) = seq 1 (batch_count _ st).

End SpecMore.

(** * Properties *)

Module TextFacts.
Import Text Spec.

Lemma append_cons x (a b : string) : String x a +:+ b = String x (a +:+ b).
Proof. done. Qed.

Lemma append_empty_l (b : string) : EmptyString +:+ b = b.
Proof. done. Qed.

Lemma append_assoc (a b c : string) : (a +:+ b) +:+ c = a +:+ b +:+ c.
Proof.
  induction a as [|x a IH]; [done|]. by rewrite !append_cons, IH.
Qed.

Lemma append_empty_r (a : string) : a +:+ EmptyString = a.
Proof. induction a as [|x a IH]; [done|]. by rewrite append_cons, IH. Qed.

Lemma string_of_list_app (l1 l2 : list ascii) :
  String.string_of_list_ascii (l1 ++ l2) =
  String.string_of_list_ascii l1 +:+ String.string_of_list_ascii l2.
Proof.
  induction l1 as [|x l1 IH]; simpl; [done|]. by rewrite append_cons, IH.
Qed.

(** *** The order on strings *)

Lemma compare_String a b s t :
  String.compare (String a s) (String b t) =
  match (code a ?= code b)%N with
  | Eq => String.compare s t
  | c => c
  end.
Proof. done. Qed.

Lemma code_inj a b : code a = code b → a = b.
Proof.
  unfold code. intros E.
  rewrite <- (ascii_N_embedding a), <- (ascii_N_embedding b). by rewrite E.
Qed.

Lemma compare_trans_Lt s1 : ∀ s2 s3,
  String.compare s1 s2 = Lt → String.compare s2 s3 = Lt →
  String.compare s1 s3 = Lt.
Proof.
  induction s1 as [|a s1 IH]; intros [|b s2] [|c s3]; try done.
  rewrite !compare_String.
  destruct (N.compare_spec (code a) (code b)) as [Eab|Lab|Gab];
    destruct (N.compare_spec (code b) (code c)) as [Ebc|Lbc|Gbc];
    try done; intros H1 H2.
  - rewrite Eab, Ebc, N.compare_refl. eauto.
  - rewrite Eab. by apply N.compare_lt_iff in Lbc as ->.
  - rewrite <- Ebc. by apply N.compare_lt_iff in Lab as ->.
  - assert (code a < code c)%N as L by lia.
    by apply N.compare_lt_iff in L as ->.
Qed.

#[export] Instance str_le_total : Total str_le.
Proof. intros s1 s2. apply String.leb_total. Qed.

#[export] Instance str_le_antisym : AntiSymm (=) str_le.
Proof. intros s1 s2. apply String.leb_antisym. Qed.

#[export] Instance str_le_trans : Transitive str_le.
Proof.
  intros s1 s2 s3. unfold str_le, String.leb.
  destruct (String.compare s1 s2) eqn:E12; [| |done];
    destruct (String.compare s2 s3) eqn:E23; try done; intros _ _.
  - apply String.compare_eq_iff in E12 as ->. by rewrite E23.
  - apply String.compare_eq_iff in E12 as ->. by rewrite E23.
  - apply String.compare_eq_iff in E23 as <-. by rewrite E12.
  - by rewrite (compare_trans_Lt _ _ _ E12 E23).
Qed.

#[export] Instance str_le_refl : Reflexive str_le.
Proof. intros s. by destruct (str_le_total s s). Qed.

(** *** Lowercasing *)

Lemma lower_ascii_idemp c : lower_ascii (lower_ascii c) = lower_ascii c.
Proof.
  unfold lower_ascii at 2 3.
  destruct ((65 <=? code c)%N && (code c <=? 90)%N) eqn:E; [|].
  - unfold lower_ascii, code. rewrite N_ascii_embedding.
    + apply andb_true_iff in E as [E1%N.leb_le E2%N.leb_le].
      fold (code c).
      destruct (65 <=? code c + 32)%N eqn:F1; [|done].
      destruct (code c + 32 <=? 90)%N eqn:F2; [|done].
      apply N.leb_le in F2. lia.
    + apply andb_true_iff in E as [_ E2%N.leb_le]. fold (code c). lia.
  - unfold lower_ascii. by rewrite E.
Qed.

Lemma lower_idemp s : lower (lower s) = lower s.
Proof.
  induction s as [|c s IH]; simpl; [done|].
  by rewrite lower_ascii_idemp, IH.
Qed.

(** *** Tokenization *)

Lemma flush_token run :
  run ≠ [] → Forall (λ c, is_word_char c = true) run →
  flush run = [String.string_of_list_ascii (rev run)] ∧
  token (String.string_of_list_ascii (rev run)).
Proof.
  intros Hne Hall. destruct run as [|c run]; [done|]. split; [done|].
  split.
  - simpl. rewrite string_of_list_app. simpl.
    destruct (String.string_of_list_ascii (rev run)); done.
  - rewrite String.list_ascii_of_string_of_list_ascii.
    by apply Forall_rev.
Qed.

Lemma tokens_of_gap_cons c s toks :
  is_word_char c = false → tokens_of s toks → tokens_of (String c s) toks.
Proof.
  intros Hc H. destruct H as [g Hg | g w rest toks Hg Hw Hr Ht].
  - apply tokens_none. by constructor.
  - change (String c (g +:+ w +:+ rest)) with (String c g +:+ w +:+ rest).
    apply tokens_next; [by constructor | done..].
Qed.

(** The scanner computes the tokenization of the specification, also when
    it starts inside a token. *)
Lemma scan_tokens_of s :
  tokens_of s (scan [] s) ∧
  ∀ run, run ≠ [] → Forall (λ c, is_word_char c = true) run →
    tokens_of (String.string_of_list_ascii (rev run) +:+ s) (scan run s).
Proof.
  induction s as [|c s [IH0 IH1]].
  - split.
    + apply tokens_none. constructor.
    + intros run Hne Hall. simpl.
      destruct (flush_token run Hne Hall) as [-> Htok].
      apply (tokens_next EmptyString _ EmptyString []);
        [constructor | done | done | apply tokens_none; constructor].
  - simpl. destruct (is_word_char c) eqn:Hc.
    + split.
      * apply (IH1 [c]); [done | by repeat constructor].
      * intros run Hne Hall.
        specialize (IH1 (c :: run)). simpl in IH1.
        rewrite string_of_list_app, append_assoc in IH1. simpl in IH1.
        apply IH1; [done | by constructor].
    + split.
      * by apply tokens_of_gap_cons.
      * intros run Hne Hall.
        destruct (flush_token run Hne Hall) as [-> Htok]. simpl.
        apply (tokens_next EmptyString _ (String c s));
          [constructor | done | done | by apply tokens_of_gap_cons].
Qed.

Lemma regexFindAll_tokens_of text : tokens_of text (regexFindAll text).
Proof. apply scan_tokens_of. Qed.

Lemma scan_gap g s : gap g → scan [] (g +:+ s) = scan [] s.
Proof.
  unfold gap. induction g as [|c g IH]; simpl; [done|].
  intros H. apply Forall_cons in H as [-> H]. simpl. auto.
Qed.

Lemma scan_run w : ∀ run s,
  Forall (λ c, is_word_char c = true) (String.list_ascii_of_string w) →
  scan run (w +:+ s) = scan (rev (String.list_ascii_of_string w) ++ run) s.
Proof.
  induction w as [|c w IH]; simpl; intros run s H; [done|].
  apply Forall_cons in H as [-> H]. rewrite IH by done.
  by rewrite <- app_assoc.
Qed.

Lemma scan_ends_token run rest :
  run ≠ [] → ends_token rest →
  scan run rest = String.string_of_list_ascii (rev run) :: scan [] rest.
Proof.
  intros Hne Hr. destruct rest as [|c rest]; simpl in *.
  - by destruct run.
  - rewrite Hr. by destruct run.
Qed.

(** The tokenization of the specification is unique: it is the one the
    scanner computes. *)
Lemma tokens_of_regexFindAll text toks :
  tokens_of text toks → toks = regexFindAll text.
Proof.
  unfold regexFindAll. induction 1 as [g Hg | g w rest toks Hg Hw Hr _ IH].
  - rewrite <- (append_empty_r g). by rewrite scan_gap.
  - rewrite scan_gap by done. destruct Hw as [Hne Hall].
    rewrite scan_run by done. rewrite app_nil_r.
    rewrite scan_ends_token; [| |done].
    + by rewrite rev_involutive, String.string_of_list_ascii_of_string, IH.
    + destruct w; [done|]. simpl. intros E.
      by apply app_eq_nil in E as [_ ?].
Qed.

Example tokens_of_cats :
  regexFindAll (lower "Cats. cats, CATS!") = ["cats"; "cats"; "cats"].
Proof. reflexivity. Qed.

Example tokens_of_empty : regexFindAll (lower "") = [].
Proof. reflexivity. Qed.

End TextFacts.

Module StoreFacts.
Import Text Store Spec TextFacts.

(** *** The sort key (count descending, key ascending) is a total order *)

#[export] Instance count_desc_id_asc_total : Total count_desc_id_asc.
Proof.
  intros [i1 c1] [i2 c2]. unfold count_desc_id_asc. simpl.
  destruct (lt_eq_lt_dec c1 c2) as [[L|E]|G]; [auto| |auto].
  destruct (str_le_total i1 i2); auto.
Qed.

#[export] Instance count_desc_id_asc_trans : Transitive count_desc_id_asc.
Proof.
  intros [i1 c1] [i2 c2] [i3 c3]. unfold count_desc_id_asc. simpl.
  intros [L1|[E1 S1]] [L2|[E2 S2]]; [left; lia..|].
  right. split; [lia|]. by trans i2.
Qed.

#[export] Instance count_desc_id_asc_antisym : AntiSymm (=) count_desc_id_asc.
Proof.
  intros [i1 c1] [i2 c2]. unfold count_desc_id_asc. simpl.
  intros [L1|[E1 S1]] [L2|[E2 S2]]; [lia..|].
  f_equal; [|done]. by apply (anti_symm str_le).
Qed.

Lemma sort_count_id_perm l : sort_count_id l ≡ₚ l.
Proof. apply merge_sort_Permutation. Qed.

Lemma sort_count_id_sorted l :
  StronglySorted count_desc_id_asc (sort_count_id l).
Proof. apply (StronglySorted_merge_sort _). Qed.

(** The order of the result does not depend on the order in which the
    groups arrive. *)
Lemma sort_count_id_unique l1 l2 :
  l1 ≡ₚ l2 → sort_count_id l1 = sort_count_id l2.
Proof.
  intros H. apply (Sorted_unique count_desc_id_asc).
  - apply (Sorted_merge_sort _).
  - apply (Sorted_merge_sort _).
  - by rewrite !sort_count_id_perm.
Qed.

(** *** The group stage counts occurrences *)

Lemma occurrences_cons w k ws :
  occurrences w (k :: ws) =
  if decide (k = w) then S (occurrences w ws) else occurrences w ws.
Proof. unfold occurrences. rewrite filter_cons. by case_decide. Qed.

Lemma occurrences_perm w ws1 ws2 :
  ws1 ≡ₚ ws2 → occurrences w ws1 = occurrences w ws2.
Proof. unfold occurrences. by intros ->. Qed.

Lemma occurrences_app w ws1 ws2 :
  occurrences w (ws1 ++ ws2) = occurrences w ws1 + occurrences w ws2.
Proof. unfold occurrences. by rewrite filter_app, length_app. Qed.

Lemma group_count_lookup ws w :
  group_count ws !! w =
  if decide (occurrences w ws = 0) then None else Some (occurrences w ws).
Proof.
  induction ws as [|k ws IH]; [done|].
  unfold group_count in *. simpl. rewrite occurrences_cons.
  destruct (decide (k = w)) as [->|Hne].
  - rewrite lookup_insert_eq, IH.
    repeat case_decide; simpl; try lia; f_equal; lia.
  - by rewrite lookup_insert_ne.
Qed.

Lemma group_count_perm ws1 ws2 :
  ws1 ≡ₚ ws2 → group_count ws1 = group_count ws2.
Proof.
  intros H. apply map_eq. intros w.
  by rewrite !group_count_lookup, (occurrences_perm w ws1 ws2 H).
Qed.

Lemma elem_of_group_rows r m :
  r ∈ group_rows m ↔ m !! _id r = Some (count r).
Proof.
  unfold group_rows. rewrite list_elem_of_fmap. split.
  - intros [[k n] [-> H]]. by apply elem_of_map_to_list in H.
  - intros H. exists (_id r, count r). split; [by destruct r|].
    by apply elem_of_map_to_list.
Qed.

Lemma group_rows_ids m : _id <$> group_rows m = (map_to_list m).*1.
Proof. unfold group_rows. by rewrite <- list_fmap_compose. Qed.

Lemma NoDup_group_rows_ids m : NoDup (_id <$> group_rows m).
Proof. rewrite group_rows_ids. apply NoDup_fst_map_to_list. Qed.

(** The rows that reach the selection: one per distinct key, each with the
    number of occurrences of the key, sorted by count descending and then
    key ascending. *)
Lemma elem_of_sorted_groups r ws :
  r ∈ sort_count_id (group_rows (group_count ws)) ↔
  0 < count r ∧ count r = occurrences (_id r) ws.
Proof.
  rewrite sort_count_id_perm, elem_of_group_rows, group_count_lookup.
  case_decide; split; [done | lia | intros [=]; lia | intros [_ ->]; done].
Qed.

Lemma NoDup_sorted_groups_ids ws :
  NoDup (_id <$> sort_count_id (group_rows (group_count ws))).
Proof.
  rewrite sort_count_id_perm. apply NoDup_group_rows_ids.
Qed.

Lemma sorted_groups_perm ws1 ws2 :
  ws1 ≡ₚ ws2 →
  sort_count_id (group_rows (group_count ws1)) =
  sort_count_id (group_rows (group_count ws2)).
Proof. intros H. by rewrite (group_count_perm _ _ H). Qed.

(** *** The order on dates *)

#[export] Instance date_le_total : Total date_le.
Proof. intros [a|] [b|]; simpl; auto. lia. Qed.

#[export] Instance date_le_trans : Transitive date_le.
Proof. intros [a|] [b|] [c|]; simpl; try done. lia. Qed.

End StoreFacts.

Module QueryFacts.
Import Text Store Query Spec TextFacts StoreFacts.

(** *** Top-N-With-Ties as the specification words it *)

Section Selection.
Context {A K I : Type} `{EqDecision K, EqDecision I}.
Variable key : A → K.
Variable ident : A → I.

Lemma filter_none (P : A → Prop) `{∀ x, Decision (P x)} (l : list A) :
  Forall (λ x, ¬ P x) l → filter P l = [].
Proof.
  induction 1 as [|x l Hx _ IH]; [done|]. by rewrite filter_cons_False.
Qed.

Lemma top5_with_ties_filter_head l fifth :
  filter (λ e, key e = key fifth ∧ ident e ∉ ident <$> take 4 l) (take 4 l)
  = [].
Proof.
  apply filter_none, Forall_forall. intros e He [_ Hn].
  apply Hn, list_elem_of_fmap. eauto.
Qed.

(** With exactly five entries whose identity keys are distinct the
    selection is the whole list. *)
Lemma top5_with_ties_five l :
  length l = 5 → NoDup (ident <$> l) → top5_with_ties key ident l = l.
Proof.
  intros Hlen Hnd. unfold top5_with_ties.
  destruct (l !! 4) as [fifth|] eqn:E;
    [|apply lookup_ge_None in E; lia].
  assert (l = take 4 l ++ [fifth]) as Hl.
  { rewrite <- (take_drop 4 l) at 1. f_equal.
    rewrite (drop_S _ _ _ E). rewrite drop_ge by lia. done. }
  pose proof (top5_with_ties_filter_head l fifth) as Hhead.
  remember (take 4 l) as top4 eqn:Htop. clear Htop. subst l.
  rewrite filter_app, Hhead. simpl. f_equal.
  rewrite filter_cons, filter_nil.
  rewrite decide_True; [done|]. split; [done|].
  rewrite fmap_app in Hnd. apply NoDup_app in Hnd as (_ & Hd & _).
  intros Hin. apply (Hd _ Hin). simpl. apply list_elem_of_here.
Qed.

(** No identity key occurs twice in the selection. *)
Lemma top5_with_ties_NoDup l :
  NoDup (ident <$> l) → NoDup (ident <$> top5_with_ties key ident l).
Proof.
  intros Hnd. unfold top5_with_ties. destruct (l !! 4) as [fifth|]; [|done].
  rewrite fmap_app. apply NoDup_app. split; [|split].
  - rewrite <- (take_drop 4 l), fmap_app in Hnd.
    by apply NoDup_app in Hnd as [? _].
  - intros i Hi [e [-> He]]%list_elem_of_fmap.
    apply list_elem_of_filter in He as [[_ Hn] _]. done.
  - eapply sublist_NoDup; [exact Hnd|].
    apply fmap_sublist, sublist_filter.
Qed.

(** An entry behind the fourth position that ties the fifth entry's key is
    selected, when identity keys are distinct. *)
Lemma top5_with_ties_tied l fifth i e :
  NoDup (ident <$> l) → l !! 4 = Some fifth → 4 ≤ i → l !! i = Some e →
  key e = key fifth → e ∈ top5_with_ties key ident l.
Proof.
  intros Hnd H5 Hi He Hk. unfold top5_with_ties. rewrite H5.
  apply elem_of_app. right. apply list_elem_of_filter. split.
  - split; [done|].
    rewrite <- (take_drop 4 l), fmap_app in Hnd.
    apply NoDup_app in Hnd as (_ & Hd & _).
    intros Hin. apply (Hd _ Hin), list_elem_of_fmap. exists e. split; [done|].
    apply list_elem_of_lookup. exists (i - 4). rewrite lookup_drop.
    by replace (4 + (i - 4)) with i by lia.
  - by eapply list_elem_of_lookup_2.
Qed.

End Selection.

(** *** The selection code of the handlers *)

(** The selection written out in [handle_common_words] and in
    [handle_top_sources_2015], under any wrapper [W] of its result. *)
Lemma grouped_selection {R} (W : list group_row → R) all_results :
  (let top_5 := take 5 all_results in
   if decide (5 ≤ length top_5) then
     match top_5 !! 4 with
     | Some fifth =>
         let fifth_count := count fifth in
         let included : gset string := list_to_set (_id <$> take 4 top_5) in
         let tied :=
           filter (λ item, count item = fifth_count ∧ _id item ∉ included)
                  all_results in
         W (take 4 top_5 ++ tied)
     | None => W top_5
     end
   else W top_5)
  = W (if decide (5 ≤ length all_results)
       then top5_with_ties count _id all_results else all_results).
Proof.
  cbv zeta. rewrite length_take.
  destruct (decide (5 ≤ length all_results)) as [Hlen|Hlen].
  - rewrite decide_True by lia. rewrite lookup_take_lt by lia.
    unfold top5_with_ties.
    destruct (all_results !! 4) as [fifth|] eqn:E;
      [|apply lookup_ge_None in E; lia].
    rewrite take_take. f_equal. f_equal. apply list_filter_iff.
    intros item. by rewrite elem_of_list_to_set.
  - rewrite decide_False by lia. by rewrite take_ge by lia.
Qed.

Lemma select_recent_dated all_articles fifth instant :
  all_articles !! 4 = Some fifth → publishedDate fifth = Some instant →
  select_recent all_articles =
  top5_with_ties publishedDate title_and_instant all_articles.
Proof.
  intros E Hd. unfold select_recent, top5_with_ties.
  pose proof (lookup_lt_Some _ _ _ E) as Hlen.
  rewrite length_take, decide_True by lia.
  rewrite lookup_take_lt by lia. rewrite E. simpl. rewrite Hd.
  rewrite take_take. f_equal.
  apply list_filter_iff. intros a. by rewrite elem_of_list_to_set.
Qed.

Lemma select_recent_null all_articles fifth :
  all_articles !! 4 = Some fifth → publishedDate fifth = None →
  select_recent all_articles = take 5 all_articles.
Proof.
  intros E Hd. unfold select_recent.
  pose proof (lookup_lt_Some _ _ _ E) as Hlen.
  rewrite length_take, decide_True by lia.
  rewrite lookup_take_lt by lia. rewrite E. simpl. by rewrite Hd.
Qed.

Lemma select_recent_short all_articles :
  length all_articles < 5 → select_recent all_articles = all_articles.
Proof.
  intros Hlen. unfold select_recent.
  rewrite length_take, decide_False by lia. by rewrite take_ge by lia.
Qed.

Section EngineFacts.
Variable toDate : string → option Z.
Variable year : Z → Z.
Variable dateToString : Z → string.
Variable strptime_ok : string → bool.

Lemma handle_common_words_eq collection input :
  lower (strip input) ∈ ["news"; "blog"] →
  handle_common_words collection input =
  match common_words_aggregate collection (lower (strip input)) with
  | [] => NoWords
  | all_results =>
      TopWords (if decide (5 ≤ length all_results)
                then top5_with_ties count _id all_results
                else all_results)
  end.
Proof.
  intros Hin. unfold handle_common_words. cbv zeta.
  rewrite decide_True by done.
  destruct (common_words_aggregate _ _) as [|r all] eqn:E; [done|].
  apply (grouped_selection TopWords).
Qed.

Lemma handle_top_sources_2015_eq collection :
  handle_top_sources_2015 toDate year collection =
  match top_sources_aggregate toDate year collection with
  | None => SourcesRaised
  | Some [] => NoSources
  | Some all_results =>
      TopSources (if decide (5 ≤ length all_results)
                  then top5_with_ties count _id all_results
                  else all_results)
  end.
Proof.
  unfold handle_top_sources_2015.
  destruct (top_sources_aggregate _ _ _) as [[|r all]|]; [done| |done].
  apply (grouped_selection TopSources).
Qed.

Lemma handle_recent_by_source_eq collection input :
  strip input ≠ EmptyString →
  handle_recent_by_source toDate dateToString collection input =
  match recent_by_source_aggregate toDate dateToString collection
          (lower (strip input)) with
  | None => RecentRaised
  | Some [] => SourceNotFound
  | Some all_articles => RecentArticles (select_recent all_articles)
  end.
Proof.
  intros Hne. unfold handle_recent_by_source. cbv zeta.
  by rewrite decide_False by done.
Qed.

Lemma common_words_aggregate_rows collection media_type r :
  r ∈ common_words_aggregate collection media_type ↔
  0 < count r ∧
  count r =
    occurrences (_id r)
      (mjoin ((λ a, regexFindAll (lower (default EmptyString (content a))))
                <$> filter (λ a, lower (Query.media_type a) = media_type)
                           collection)).
Proof.
  unfold common_words_aggregate. cbv zeta.
  rewrite elem_of_sorted_groups. by rewrite <- list_fmap_compose.
Qed.

Lemma common_words_aggregate_NoDup collection media_type :
  NoDup (_id <$> common_words_aggregate collection media_type).
Proof. apply NoDup_sorted_groups_ids. Qed.

Lemma common_words_aggregate_sorted collection media_type :
  StronglySorted count_desc_id_asc
    (common_words_aggregate collection media_type).
Proof. apply sort_count_id_sorted. Qed.

Lemma top_sources_aggregate_NoDup collection all_results :
  top_sources_aggregate toDate year collection = Some all_results →
  NoDup (_id <$> all_results).
Proof.
  unfold top_sources_aggregate. intros H.
  destruct (mapM _ collection); simplify_eq/=.
  apply NoDup_sorted_groups_ids.
Qed.

Lemma top_sources_aggregate_sorted collection all_results :
  top_sources_aggregate toDate year collection = Some all_results →
  StronglySorted count_desc_id_asc all_results.
Proof.
  unfold top_sources_aggregate. intros H.
  destruct (mapM _ collection); simplify_eq/=.
  apply sort_count_id_sorted.
Qed.

End EngineFacts.

(** *** The selection of each operation *)

Section SelectionClaims.
Variable toDate : string → option Z.
Variable year : Z → Z.
Variable dateToString : Z → string.

(** C1 (as amended).  With more than five entries, Op1 and Op3 return the
    entries at positions 1-4 in their order, followed by every entry of the
    full sorted list whose count is that of the 5th entry and whose key is
    not that of one of the first four; an entry at position 6 that ties the
    5th entry's count is included, and no key appears twice in the output.
    Op4 returns the same selection, with the normalized instant as primary
    key and (title, instant) as identity key, whenever the 5th article has a
    normalized instant. *)
Theorem top5_with_ties_selected (collection : list article) (input : string) :
  (∀ words,
     lower (strip input) ∈ ["news"; "blog"] →
     common_words_aggregate collection (lower (strip input)) = words →
     5 < length words →
     handle_common_words collection input
       = TopWords (top5_with_ties count _id words)
     ∧ (∀ fifth sixth,
          words !! 4 = Some fifth → words !! 5 = Some sixth →
          count sixth = count fifth →
          sixth ∈ top5_with_ties count _id words)
     ∧ NoDup (_id <$> top5_with_ties count _id words))
  ∧ (∀ sources,
       top_sources_aggregate toDate year collection = Some sources →
       5 < length sources →
       handle_top_sources_2015 toDate year collection
         = TopSources (top5_with_ties count _id sources)
       ∧ (∀ fifth sixth,
            sources !! 4 = Some fifth → sources !! 5 = Some sixth →
            count sixth = count fifth →
            sixth ∈ top5_with_ties count _id sources)
       ∧ NoDup (_id <$> top5_with_ties count _id sources))
  ∧ (∀ articles fifth instant,
       strip input ≠ EmptyString →
       recent_by_source_aggregate toDate dateToString collection
         (lower (strip input)) = Some articles →
       5 < length articles →
       articles !! 4 = Some fifth → publishedDate fifth = Some instant →
       handle_recent_by_source toDate dateToString collection input
         = RecentArticles
             (top5_with_ties publishedDate title_and_instant articles)).
Proof.
  split; [|split].
  - intros words Hin Hagg Hlen.
    pose proof (common_words_aggregate_NoDup collection
                  (lower (strip input))) as Hnd.
    rewrite Hagg in Hnd. split; [|split].
    + rewrite handle_common_words_eq, Hagg by done.
      destruct words as [|r words]; [simpl in Hlen; lia|].
      cbv zeta. by rewrite decide_True by lia.
    + intros fifth sixth H5 H6 Hc.
      apply (top5_with_ties_tied count _id _ fifth 5 sixth);
        [done | done | lia | done | done].
    + by apply top5_with_ties_NoDup.
  - intros sources Hagg Hlen.
    pose proof (top_sources_aggregate_NoDup _ _ _ _ Hagg) as Hnd.
    split; [|split].
    + rewrite handle_top_sources_2015_eq, Hagg.
      destruct sources as [|r sources]; [simpl in Hlen; lia|].
      cbv zeta. by rewrite decide_True by lia.
    + intros fifth sixth H5 H6 Hc.
      apply (top5_with_ties_tied count _id _ fifth 5 sixth);
        [done | done | lia | done | done].
    + by apply top5_with_ties_NoDup.
  - intros articles fifth instant Hne Hagg Hlen H5 Hd.
    rewrite handle_recent_by_source_eq, Hagg by done.
    destruct articles as [|r articles]; [simpl in Hlen; lia|].
    by rewrite (select_recent_dated _ fifth instant).
Qed.

(** C2.  With at most five entries Op1 and Op3 return all the entries, in
    the sorted order of the pipeline (count descending, key ascending), the
    list of exactly five entries included; Op4 does the same when the
    (title, instant) keys of its entries are distinct. *)
Theorem at_most_five_all_returned (collection : list article)
    (input : string) :
  (∀ words,
     lower (strip input) ∈ ["news"; "blog"] →
     common_words_aggregate collection (lower (strip input)) = words →
     length words ≤ 5 →
     handle_common_words collection input
       = match words with [] => NoWords | _ => TopWords words end
     ∧ StronglySorted count_desc_id_asc words)
  ∧ (∀ sources,
       top_sources_aggregate toDate year collection = Some sources →
       length sources ≤ 5 →
       handle_top_sources_2015 toDate year collection
         = match sources with [] => NoSources | _ => TopSources sources end
       ∧ StronglySorted count_desc_id_asc sources)
  ∧ (∀ articles,
       strip input ≠ EmptyString →
       recent_by_source_aggregate toDate dateToString collection
         (lower (strip input)) = Some articles →
       length articles ≤ 5 →
       NoDup (title_and_instant <$> articles) →
       handle_recent_by_source toDate dateToString collection input
         = match articles with
           | [] => SourceNotFound
           | _ => RecentArticles articles
           end).
Proof.
  split; [|split].
  - intros words Hin Hagg Hlen. split.
    + rewrite handle_common_words_eq, Hagg by done.
      pose proof (common_words_aggregate_NoDup collection
                    (lower (strip input))) as Hnd.
      rewrite Hagg in Hnd.
      destruct words as [|r words]; [done|]. cbv zeta. f_equal.
      case_decide; [|done].
      apply top5_with_ties_five; [lia | done].
    + rewrite <- Hagg. apply common_words_aggregate_sorted.
  - intros sources Hagg Hlen. split.
    + rewrite handle_top_sources_2015_eq, Hagg.
      pose proof (top_sources_aggregate_NoDup _ _ _ _ Hagg) as Hnd.
      destruct sources as [|r sources]; [done|]. cbv zeta. f_equal.
      case_decide; [|done].
      apply top5_with_ties_five; [lia | done].
    + by eapply top_sources_aggregate_sorted.
  - intros articles Hne Hagg Hlen Hnd.
    rewrite handle_recent_by_source_eq, Hagg by done.
    destruct articles as [|r articles]; [done|]. cbv zeta. f_equal.
    destruct (decide (length (r :: articles) < 5)) as [Hlt|Hge].
    { by apply select_recent_short. }
    destruct (lookup_lt_is_Some_2 (r :: articles) 4 ltac:(lia))
      as [fifth H5].
    destruct (publishedDate fifth) as [instant|] eqn:Hd.
    + rewrite (select_recent_dated _ fifth instant) by done.
      apply top5_with_ties_five; [lia | done].
    + rewrite (select_recent_null _ fifth) by done. apply take_ge. lia.
Qed.

(** C10.  In Op4, when the article at position 5 has no normalized
    published value, the result is exactly the first five articles of the
    sorted list; nothing behind them is added. *)
Theorem recent_null_fifth_first_five (collection : list article)
    (input : string) (articles : list recent_article)
    (fifth : recent_article) :
  strip input ≠ EmptyString →
  recent_by_source_aggregate toDate dateToString collection
    (lower (strip input)) = Some articles →
  articles !! 4 = Some fifth →
  publishedDate fifth = None →
  handle_recent_by_source toDate dateToString collection input
    = RecentArticles (take 5 articles)
  ∧ length (take 5 articles) = 5.
Proof.
  intros Hne Hagg H5 Hd.
  pose proof (lookup_lt_Some _ _ _ H5) as Hlen.
  rewrite handle_recent_by_source_eq, Hagg by done. split.
  - destruct articles as [|r articles]; [done|].
    by rewrite (select_recent_null _ fifth).
  - rewrite length_take. lia.
Qed.

End SelectionClaims.

(** *** Lists of documents related position by position *)

Section Related.
Context {A B : Type}.

Lemma mapM_related {A' B'} (Q : A → A' → Prop) (P : B → B' → Prop)
    (f : A → option B) (g : A' → option B') l k :
  (∀ x y, Q x y → option_Forall2 P (f x) (g y)) →
  Forall2 Q l k →
  option_Forall2 (Forall2 P) (mapM f l) (mapM g k).
Proof.
  intros Hfg. induction 1 as [|x y l k Hxy _ IH]; [by repeat constructor|].
  simpl.
  destruct (Hfg x y Hxy) as [b b' Hb|]; simpl; [|constructor].
  destruct IH as [bs bs' Hbs|]; simpl; constructor. by constructor.
Qed.

Lemma fmap_filter_related {A' C} (Q : A → A' → Prop)
    (P1 : A → Prop) (P2 : A' → Prop)
    `{∀ x, Decision (P1 x), ∀ y, Decision (P2 y)}
    (f : A → C) (g : A' → C) l k :
  (∀ x y, Q x y → (P1 x ↔ P2 y) ∧ f x = g y) →
  Forall2 Q l k →
  f <$> filter P1 l = g <$> filter P2 k.
Proof.
  intros HQ. induction 1 as [|x y l k Hxy _ IH]; [done|].
  destruct (HQ x y Hxy) as [Hiff Hfg]. rewrite !filter_cons.
  destruct (decide (P1 x)) as [H1|H1], (decide (P2 y)) as [H2|H2].
  - by rewrite !fmap_cons, Hfg, IH.
  - exfalso. apply H2, Hiff, H1.
  - exfalso. apply H1, Hiff, H2.
  - exact IH.
Qed.

End Related.

(** Merge sort sees its input only through the comparisons: on two lists
    related position by position by a relation that the order respects, it
    makes the same moves. *)
Section SortRelated.
Context {A : Type} (R : relation A) `{∀ x y, Decision (R x y)}.
Variable P : A → A → Prop.
Hypothesis P_respects :
  ∀ x x' y y', P x x' → P y y' → (R x y ↔ R x' y').

Lemma list_merge_related l1 l1' :
  Forall2 P l1 l1' → ∀ l2 l2', Forall2 P l2 l2' →
  Forall2 P (list_merge R l1 l2) (list_merge R l1' l2').
Proof.
  induction 1 as [|x x' l1 l1' Hx Hl1 IH1].
  - intros l2 l2' H2. by rewrite !list_merge_nil_l.
  - induction 1 as [|y y' l2 l2' Hy Hl2 IH2].
    + rewrite !list_merge_nil_r. by constructor.
    + rewrite !list_merge_cons.
      destruct (decide (R x y)) as [Hr|Hr], (decide (R x' y')) as [Hr'|Hr'];
        try (exfalso; apply (P_respects x x' y y' Hx Hy) in Hr; tauto);
        try (exfalso; apply (P_respects x x' y y' Hx Hy) in Hr'; tauto).
      * constructor; [done|]. apply IH1. by constructor.
      * constructor; [done|]. apply IH2.
Qed.

Lemma merge_list_to_stack_related st st' :
  Forall2 (option_Forall2 (Forall2 P)) st st' →
  ∀ l l', Forall2 P l l' →
  Forall2 (option_Forall2 (Forall2 P))
    (merge_list_to_stack R st l) (merge_list_to_stack R st' l').
Proof.
  induction 1 as [|o o' st st' Ho Hst IH]; intros l l' Hl; simpl.
  - by repeat constructor.
  - destruct Ho as [k k' Hk|]; constructor.
    + constructor.
    + apply IH. by apply list_merge_related.
    + by constructor.
    + exact Hst.
Qed.

Lemma merge_stack_related st st' :
  Forall2 (option_Forall2 (Forall2 P)) st st' →
  Forall2 P (merge_stack R st) (merge_stack R st').
Proof.
  induction 1 as [|o o' st st' Ho _ IH]; simpl; [constructor|].
  destruct Ho; [by apply list_merge_related | done].
Qed.

Lemma merge_sort_aux_related l l' :
  Forall2 P l l' → ∀ st st',
  Forall2 (option_Forall2 (Forall2 P)) st st' →
  Forall2 P (merge_sort_aux R st l) (merge_sort_aux R st' l').
Proof.
  induction 1 as [|x x' l l' Hx _ IH]; intros st st' Hst; simpl.
  - by apply merge_stack_related.
  - apply IH. apply merge_list_to_stack_related; [done|].
    by repeat constructor.
Qed.

Lemma merge_sort_related l l' :
  Forall2 P l l' → Forall2 P (merge_sort R l) (merge_sort R l').
Proof. intros Hl. apply merge_sort_aux_related; [done | constructor]. Qed.

End SortRelated.

(** *** One normalization of [published] for every operation *)

Section Representation.
Variable toDate : string → option Z.
Variable year : Z → Z.
Variable dateToString : Z → string.
Variable strptime_ok : string → bool.

Lemma same_instant_published_date p q :
  same_instant toDate p q →
  published_date toDate p = published_date toDate q.
Proof. destruct 1 as [p|d s E|d s E]; simpl; by rewrite ?E. Qed.

Lemma article_count_aggregate_related c1 c2 date_str :
  Forall2 (same_article toDate) c1 c2 →
  article_count_aggregate toDate dateToString c1 date_str
  = article_count_aggregate toDate dateToString c2 date_str.
Proof.
  intros H. unfold article_count_aggregate.
  rewrite (Forall2_mapM_ext (project_day toDate dateToString)
             (project_day toDate dateToString) c1 c2); [done|].
  eapply Forall2_impl; [exact H|].
  intros a b (_ & _ & _ & Hm & _ & Hp). unfold project_day.
  by rewrite Hm, (same_instant_published_date _ _ Hp).
Qed.

Lemma top_sources_aggregate_related c1 c2 :
  Forall2 (same_article toDate) c1 c2 →
  top_sources_aggregate toDate year c1 = top_sources_aggregate toDate year c2.
Proof.
  intros H. unfold top_sources_aggregate.
  pose proof (mapM_related (same_article toDate)
                (λ x y : article * option Z,
                   source x.1 = source y.1 ∧ x.2 = y.2)
                (year_of toDate year) (year_of toDate year) c1 c2) as HM.
  destruct HM as [k1 k2 Hk|]; [|done|simpl|done].
  - intros a b (_ & _ & _ & _ & Hs & Hp). unfold year_of.
    rewrite (same_instant_published_date _ _ Hp).
    destruct (published_date toDate (published b)); by constructor.
  - do 4 f_equal.
    apply (fmap_filter_related
             (λ x y : article * option Z,
                source x.1 = source y.1 ∧ x.2 = y.2)); [|done].
    intros x y [Hs Hy]. by rewrite Hs, Hy.
Qed.

Lemma recent_by_source_aggregate_related c1 c2 source_literal :
  Forall2 (same_article toDate) c1 c2 →
  recent_by_source_aggregate toDate dateToString c1 source_literal
  = recent_by_source_aggregate toDate dateToString c2 source_literal.
Proof.
  intros H. unfold recent_by_source_aggregate. cbv zeta.
  set (P := λ x y : dated_article,
              d_title x = d_title y ∧ d_publishedDate x = d_publishedDate y
              ∧ dateOnly4 x = dateOnly4 y).
  assert (Forall2 (same_article toDate)
            (filter (λ a, lower (source a) = source_literal) c1)
            (filter (λ a, lower (source a) = source_literal) c2)) as Hf.
  { apply Forall2_filter; [|done].
    intros a b (_ & _ & _ & _ & Hs & _). by rewrite Hs. }
  pose proof (λ HQ, mapM_related (same_article toDate) P
                (project_dated toDate dateToString)
                (project_dated toDate dateToString) _ _ HQ Hf) as HM.
  destruct HM as [k1 k2 Hk|]; [|simpl|done].
  - intros a b (_ & _ & Ht & _ & _ & Hp). unfold project_dated.
    rewrite (same_instant_published_date _ _ Hp).
    destruct (published_date toDate (published b)); simpl; constructor.
    by repeat split.
  - f_equal.
    assert (Forall2 P (merge_sort publishedDate_desc k1)
              (merge_sort publishedDate_desc k2)) as Hs.
    { apply merge_sort_related; [|done].
      intros x x' y y' (_ & Hx & _) (_ & Hy & _).
      unfold publishedDate_desc. by rewrite Hx, Hy. }
    induction Hs as [|x y l k (Ht & Hd & Ho) _ IH]; [done|].
    rewrite !fmap_cons, IH. f_equal. unfold project_final.
    by rewrite Ht, Hd, Ho.
Qed.

(** C4.  Two corpora that agree article by article except that [published]
    is a native date in one and a string that parses to that date in the
    other give the same results in Op2, Op3 and Op4. *)
Theorem date_representation_equivalence (c1 c2 : list article)
    (day source_name : string) :
  Forall2 (same_article toDate) c1 c2 →
  handle_article_count toDate dateToString strptime_ok c1 day
    = handle_article_count toDate dateToString strptime_ok c2 day
  ∧ handle_top_sources_2015 toDate year c1
    = handle_top_sources_2015 toDate year c2
  ∧ handle_recent_by_source toDate dateToString c1 source_name
    = handle_recent_by_source toDate dateToString c2 source_name.
Proof.
  intros H. split; [|split].
  - unfold handle_article_count.
    by rewrite (article_count_aggregate_related c1 c2).
  - unfold handle_top_sources_2015.
    by rewrite (top_sources_aggregate_related c1 c2).
  - unfold handle_recent_by_source.
    by rewrite (recent_by_source_aggregate_related c1 c2).
Qed.

End Representation.

(** *** The result as a function of the contents of the store *)

Lemma mapM_perm {A B} (f : A → option B) l1 l2 :
  l1 ≡ₚ l2 → option_Forall2 (≡ₚ) (mapM f l1) (mapM f l2).
Proof.
  induction 1 as [|x l1 l2 _ IH|x y l|l1 l2 l3 _ IH1 _ IH2].
  - by repeat constructor.
  - simpl. destruct (f x); simpl; [|constructor].
    destruct IH; simpl; constructor. by constructor.
  - simpl. destruct (f x), (f y), (mapM f l); simpl; constructor.
    apply perm_swap.
  - destruct IH1; inv IH2; constructor. by etrans.
Qed.

(** Whatever order the groups arrive in, and whichever sorted order the
    store returns, the list sorted by count descending and key ascending is
    the same one. *)
Lemma sort_contract_count_id rows out :
  sort_contract count_desc_id_asc rows out → out = sort_count_id rows.
Proof.
  intros [Hp Hs]. apply (Sorted_unique count_desc_id_asc); [done| |].
  - apply (Sorted_merge_sort _).
  - by rewrite sort_count_id_perm.
Qed.

Lemma merge_sort_contract {A} (R : relation A) `{∀ x y, Decision (R x y)}
    `{!Total R} l :
  sort_contract R l (merge_sort R l).
Proof. split; [apply merge_sort_Permutation | by apply Sorted_merge_sort]. Qed.

Lemma common_words_aggregate_perm c1 c2 media_type :
  c1 ≡ₚ c2 →
  common_words_aggregate c1 media_type = common_words_aggregate c2 media_type.
Proof.
  intros H. unfold common_words_aggregate. cbv zeta.
  apply sorted_groups_perm. by rewrite H.
Qed.

Lemma top_sources_aggregate_perm toDate year c1 c2 :
  c1 ≡ₚ c2 →
  top_sources_aggregate toDate year c1 = top_sources_aggregate toDate year c2.
Proof.
  intros H. unfold top_sources_aggregate.
  destruct (mapM_perm (year_of toDate year) c1 c2 H) as [k1 k2 Hk|];
    [simpl|done].
  f_equal. apply sorted_groups_perm. by rewrite Hk.
Qed.

(** Op1 and Op3 depend on the contents of the store only, not on the order
    in which the store holds or returns the documents. *)
Lemma grouped_results_determined toDate year c1 c2 input :
  c1 ≡ₚ c2 →
  handle_common_words c1 input = handle_common_words c2 input
  ∧ handle_top_sources_2015 toDate year c1
    = handle_top_sources_2015 toDate year c2.
Proof.
  intros H. split.
  - unfold handle_common_words.
    by rewrite (common_words_aggregate_perm c1 c2 _ H).
  - unfold handle_top_sources_2015.
    by rewrite (top_sources_aggregate_perm toDate year c1 c2 H).
Qed.

#[export] Instance publishedDate_desc_total : Total publishedDate_desc.
Proof.
  intros a1 a2. unfold publishedDate_desc.
  destruct (total date_le (d_publishedDate a2) (d_publishedDate a1)); auto.
Qed.

(** *** Option 2: the two counters and the report *)

Section ArticleCount.
Variable toDate : string → option Z.
Variable dateToString : Z → string.
Variable strptime_ok : string → bool.

Local Abbreviation day_of := (Spec.day_of toDate dateToString).
Local Abbreviation day_keys := (Spec.day_keys toDate dateToString).

Lemma assign_counts_news rows : ∀ acc,
  NoDup (_id <$> rows) →
  (∀ n, GroupRow "news" n ∈ rows → (foldl count_step acc rows).1 = n)
  ∧ ("news" ∉ _id <$> rows → (foldl count_step acc rows).1 = acc.1).
Proof.
  induction rows as [|r rows IH]; intros acc Hnd.
  - split; [intros n Hn; by apply elem_of_nil in Hn | done].
  - apply NoDup_cons in Hnd as [Hr Hnd]. simpl.
    destruct (IH (count_step acc r) Hnd) as [IH1 IH2].
    destruct (decide (_id r = "news")) as [E|E].
    + rewrite E in Hr. split.
      * intros n [<-|Hn]%elem_of_cons.
        -- rewrite IH2 by done. unfold count_step. simpl. done.
        -- exfalso. apply Hr, list_elem_of_fmap. by exists (GroupRow "news" n).
      * intros Hn. exfalso. apply Hn, elem_of_cons. by left.
    + assert ((count_step acc r).1 = acc.1) as Hacc.
      { unfold count_step. rewrite decide_False by done. by case_decide. }
      split.
      * intros n [<-|Hn]%elem_of_cons; [done|]. by apply IH1.
      * intros Hn. rewrite IH2, Hacc; [done|].
        intros Hin. apply Hn, elem_of_cons. by right.
Qed.

Lemma assign_counts_blog rows : ∀ acc,
  NoDup (_id <$> rows) →
  (∀ n, GroupRow "blog" n ∈ rows → (foldl count_step acc rows).2 = n)
  ∧ ("blog" ∉ _id <$> rows → (foldl count_step acc rows).2 = acc.2).
Proof.
  induction rows as [|r rows IH]; intros acc Hnd.
  - split; [intros n Hn; by apply elem_of_nil in Hn | done].
  - apply NoDup_cons in Hnd as [Hr Hnd]. simpl.
    destruct (IH (count_step acc r) Hnd) as [IH1 IH2].
    destruct (decide (_id r = "blog")) as [E|E].
    + rewrite E in Hr. split.
      * intros n [<-|Hn]%elem_of_cons.
        -- rewrite IH2 by done. unfold count_step. simpl. done.
        -- exfalso. apply Hr, list_elem_of_fmap. by exists (GroupRow "blog" n).
      * intros Hn. exfalso. apply Hn, elem_of_cons. by left.
    + assert ((count_step acc r).2 = acc.2) as Hacc.
      { unfold count_step. case_decide; [done|]. by rewrite decide_False. }
      split.
      * intros n [<-|Hn]%elem_of_cons; [done|]. by apply IH1.
      * intros Hn. rewrite IH2, Hacc; [done|].
        intros Hin. apply Hn, elem_of_cons. by right.
Qed.

(** The loop reads off the two groups, and a missing group counts zero. *)
Lemma assign_counts_groups (m : gmap string nat) :
  assign_counts (group_rows m)
  = (default 0 (m !! "news"), default 0 (m !! "blog")).
Proof.
  unfold assign_counts.
  pose proof (NoDup_group_rows_ids m) as Hnd.
  destruct (assign_counts_news (group_rows m) (0, 0) Hnd) as [N1 N2].
  destruct (assign_counts_blog (group_rows m) (0, 0) Hnd) as [B1 B2].
  assert (∀ k, k ∉ _id <$> group_rows m ↔ m !! k = None) as Hnone.
  { intros k. rewrite group_rows_ids. split.
    - intros Hk. destruct (m !! k) as [v|] eqn:Ek; [|done].
      exfalso. apply Hk, list_elem_of_fmap. exists (k, v).
      split; [done|]. by apply elem_of_map_to_list.
    - intros Hk [[k' v] [-> H]]%list_elem_of_fmap.
      apply elem_of_map_to_list in H. simpl in Hk. congruence. }
  destruct (foldl count_step (0, 0) (group_rows m)) as [n b] eqn:E.
  simpl in *. f_equal.
  - destruct (m !! "news") as [n'|] eqn:En; simpl.
    + apply N1, elem_of_group_rows. done.
    + by apply N2, Hnone.
  - destruct (m !! "blog") as [b'|] eqn:Eb; simpl.
    + apply B1, elem_of_group_rows. done.
    + by apply B2, Hnone.
Qed.

Lemma project_day_resolved collection :
  Forall (λ a, is_Some (published_date toDate (published a))) collection →
  mapM (project_day toDate dateToString) collection
  = Some (day_of <$> collection).
Proof.
  intros H. apply mapM_Some_2.
  induction H as [|a c [d Hd] _ IH]; [constructor|].
  rewrite fmap_cons. constructor; [|exact IH].
  unfold project_day, Spec.day_of, canonical_day. rewrite Hd. by destruct d.
Qed.

Lemma day_keys_cons a collection date_str :
  day_keys (a :: collection) date_str
  = if decide (canonical_day toDate dateToString a = Some date_str
               ∧ lower (media_type a) ∈ ["news"; "blog"])
    then lower (media_type a) :: day_keys collection date_str
    else day_keys collection date_str.
Proof.
  unfold Spec.day_keys. rewrite fmap_cons, filter_cons. simpl.
  by case_decide.
Qed.

Lemma day_keys_occurrences collection date_str kind :
  kind ∈ ["news"; "blog"] →
  occurrences kind (day_keys collection date_str)
  = length (filter (published_on toDate dateToString date_str kind)
                   collection).
Proof.
  intros Hk. induction collection as [|a c IH]; [done|].
  rewrite day_keys_cons, filter_cons.
  destruct (decide (published_on toDate dateToString date_str kind a))
    as [[Hd E]|Hno].
  - rewrite decide_True by (split; [done | by rewrite E]).
    rewrite occurrences_cons, decide_True by done. simpl. by rewrite IH.
  - case_decide as Hc; [|done]. destruct Hc as [Hd Hm].
    rewrite occurrences_cons, decide_False; [done|].
    intros E. apply Hno. by split.
Qed.

Lemma day_keys_known collection date_str :
  Forall (λ k, k ∈ ["news"; "blog"]) (day_keys collection date_str).
Proof.
  induction collection as [|a c IH]; [constructor|].
  rewrite day_keys_cons. case_decide as H; [|done].
  constructor; [by destruct H | done].
Qed.

Lemma known_keys_length keys :
  Forall (λ k, k ∈ ["news"; "blog"]) keys →
  length keys = occurrences "news" keys + occurrences "blog" keys.
Proof.
  induction 1 as [|k keys Hk _ IH]; [done|].
  rewrite !occurrences_cons. simpl. rewrite IH.
  apply elem_of_cons in Hk as [->|Hk].
  - rewrite decide_True, decide_False by done. lia.
  - apply list_elem_of_singleton in Hk as ->.
    rewrite decide_False, decide_True by done. lia.
Qed.

Lemma group_rows_nil keys : group_rows (group_count keys) = [] ↔ keys = [].
Proof.
  split; [|by intros ->].
  unfold group_rows. intros H%fmap_nil_inv%map_to_list_empty_iff.
  destruct keys as [|k keys]; [done|]. exfalso.
  apply (f_equal (λ m : gmap string nat, m !! k)) in H.
  unfold group_count in H. simpl in H.
  by rewrite lookup_insert_eq, lookup_empty in H.
Qed.

(** X15.  Op2 compares the typed text, stripped, with the canonical day
    strings as a string.  For ASCII input that [strptime] accepts, over a
    collection whose [published] values all resolve: if no article whose
    canonical day string is the stripped input has media type news or blog
    (up to letter case), Op2 reports "no articles"; otherwise it reports the
    number of news articles and the number of blog articles with that day
    string (zero for a kind without a group), and says which kind leads and
    by how much, or that both have the same number. *)
Theorem article_count_report (collection : list article) (input : string) :
  SpecMore.ascii_text input →
  strptime_ok (strip input) = true →
  Forall (λ a, is_Some (published_date toDate (published a))) collection →
  let news :=
    length (filter (published_on toDate dateToString (strip input) "news")
                   collection) in
  let blog :=
    length (filter (published_on toDate dateToString (strip input) "blog")
                   collection) in
  handle_article_count toDate dateToString strptime_ok collection input
  = if decide (news = 0 ∧ blog = 0) then NoArticles
    else Counts news blog
           (if decide (blog < news) then NewsMore (news - blog)
            else if decide (news < blog) then BlogsMore (blog - news)
            else SameNumber).
Proof.
  intros _ Hok Hres news blog.
  unfold handle_article_count. cbv zeta. rewrite Hok.
  unfold article_count_aggregate.
  rewrite (project_day_resolved _ Hres). simpl.
  fold (day_keys collection (strip input)).
  set (keys := day_keys collection (strip input)).
  assert (occurrences "news" keys = news) as Hn.
  { apply day_keys_occurrences. left. }
  assert (occurrences "blog" keys = blog) as Hb.
  { apply day_keys_occurrences. right. left. }
  pose proof (known_keys_length keys (day_keys_known _ _)) as Hlen.
  rewrite Hn, Hb in Hlen. clearbody keys news blog.
  assert (∀ x, default 0 (if decide (x = 0) then None else Some x) = x)
    as Hdef by (intros x; case_decide; simpl; lia).
  destruct (group_rows (group_count keys)) as [|r rows] eqn:E.
  - apply group_rows_nil in E. subst keys. simpl in Hlen.
    rewrite decide_True by lia. done.
  - assert (keys ≠ []) as Hne.
    { intros H. apply group_rows_nil in H. by rewrite H in E. }
    rewrite decide_False by (destruct keys; [done | simpl in Hlen; lia]).
    rewrite <- E, assign_counts_groups, !group_count_lookup, Hn, Hb.
    by rewrite !Hdef.
Qed.

End ArticleCount.

(** *** Letter case: filters compare lowercased values, Op3 groups raw ones *)

Lemma Forall2_fmap_self {A B} (f : A → B) (l : list A) :
  Forall2 (λ x y, x = f y) (f <$> l) l.
Proof. induction l; constructor; done. Qed.

Lemma common_words_input_case collection input1 input2 :
  lower (strip input1) = lower (strip input2) →
  handle_common_words collection input1 = handle_common_words collection input2.
Proof. intros H. unfold handle_common_words. by rewrite H. Qed.

Lemma common_words_stored_case collection input :
  handle_common_words (lower_media_type <$> collection) input
  = handle_common_words collection input.
Proof.
  unfold handle_common_words, common_words_aggregate. cbv zeta.
  rewrite (fmap_filter_related (λ x y : article, x = lower_media_type y)
             (λ a, lower (media_type a) = lower (strip input))
             (λ a, lower (media_type a) = lower (strip input))
             (λ a, lower (default EmptyString (content a)))
             (λ a, lower (default EmptyString (content a)))
             (lower_media_type <$> collection) collection); [done| |].
  - intros x y ->. simpl. by rewrite lower_idemp.
  - apply Forall2_fmap_self.
Qed.

Section Case.
Variable toDate : string → option Z.
Variable year : Z → Z.
Variable dateToString : Z → string.

Lemma recent_input_case collection input1 input2 :
  strip input1 ≠ EmptyString → strip input2 ≠ EmptyString →
  lower (strip input1) = lower (strip input2) →
  handle_recent_by_source toDate dateToString collection input1
  = handle_recent_by_source toDate dateToString collection input2.
Proof.
  intros H1 H2 H. rewrite !handle_recent_by_source_eq by done. by rewrite H.
Qed.

Lemma recent_stored_case collection input :
  handle_recent_by_source toDate dateToString (lower_source <$> collection)
    input
  = handle_recent_by_source toDate dateToString collection input.
Proof.
  unfold handle_recent_by_source, recent_by_source_aggregate. cbv zeta.
  case_decide; [done|].
  rewrite (Forall2_mapM_ext (project_dated toDate dateToString)
             (project_dated toDate dateToString)
             (filter (λ a, lower (source a) = lower (strip input))
                     (lower_source <$> collection))
             (filter (λ a, lower (source a) = lower (strip input))
                     collection)); [done|].
  eapply Forall2_impl.
  - apply Forall2_filter; [|apply Forall2_fmap_self].
    intros x y ->. simpl. by rewrite lower_idemp.
  - by intros x y ->.
Qed.

(** The keys that reach the group stage of Op3 are the raw [source] values
    of the articles of 2015. *)
Lemma top_sources_keys collection with_year :
  mapM (year_of toDate year) collection = Some with_year →
  (λ ay : article * option Z, source ay.1)
    <$> filter (λ ay, ay.2 = Some 2015%Z) with_year
  = source <$> filter (in_2015 toDate year) collection.
Proof.
  intros H%mapM_Some_1%Forall2_flip.
  apply (fmap_filter_related
           (λ (ay : article * option Z) a, year_of toDate year a = Some ay));
    [|done].
  intros [a' y] a. unfold year_of, in_2015.
  destruct (published_date toDate (published a)) as [[t|]|];
    simpl; intros [= <- <-]; simpl; (split; [|done]).
  - split; [by intros [= ->] | by intros ->].
  - done.
Qed.

Lemma top_sources_aggregate_rows collection sources r :
  top_sources_aggregate toDate year collection = Some sources →
  r ∈ sources ↔
  0 < count r ∧
  count r = occurrences (_id r)
              (source <$> filter (in_2015 toDate year) collection).
Proof.
  unfold top_sources_aggregate. intros H.
  destruct (mapM _ collection) as [with_year|] eqn:E; simplify_eq/=.
  by rewrite elem_of_sorted_groups, (top_sources_keys _ _ E).
Qed.

End Case.

Import Examples.

(** Closed goals: equations by evaluation, decidable facts by deciding. *)
Ltac by_evaluation := vm_compute; reflexivity.
Ltac by_decision := apply (bool_decide_unpack _); vm_compute; exact I.

Lemma top5_with_ties_selected_witness :
  handle_common_words sample "news"
    = TopWords
        [GroupRow "alpha" 6; GroupRow "beta" 4; GroupRow "gamma" 3;
         GroupRow "delta" 2; GroupRow "epsilon" 1; GroupRow "zeta" 1]
  ∧ handle_top_sources_2015 Calendar.toDate Calendar.year sample
    = TopSources
        [GroupRow "A" 3; GroupRow "B" 2; GroupRow "C" 2;
         GroupRow "D" 1; GroupRow "E" 1; GroupRow "F" 1]
  ∧ printed (match handle_recent_by_source Calendar.toDate
                     Calendar.dateToString recent_dated "bbc" with
             | RecentArticles result => result
             | _ => []
             end)
    = [("a", Some "1970-01-01"); ("b", Some "1970-01-01");
       ("c", Some "1970-01-01"); ("d", Some "1970-01-01");
       ("e", Some "1970-01-01"); ("f", Some "1970-01-01")].
Proof.
  destruct (top5_with_ties_selected Calendar.toDate Calendar.year
              Calendar.dateToString sample "news") as (H1 & H3 & _).
  destruct (top5_with_ties_selected Calendar.toDate Calendar.year
              Calendar.dateToString recent_dated "bbc") as (_ & _ & H4).
  split; [|split].
  - destruct (H1 [GroupRow "alpha" 6; GroupRow "beta" 4; GroupRow "gamma" 3;
                  GroupRow "delta" 2; GroupRow "epsilon" 1;
                  GroupRow "zeta" 1]) as [-> _];
      [by_decision | by_evaluation | simpl; lia | by_evaluation].
  - destruct (H3 [GroupRow "A" 3; GroupRow "B" 2; GroupRow "C" 2;
                  GroupRow "D" 1; GroupRow "E" 1; GroupRow "F" 1])
      as [-> _]; [by_evaluation | simpl; lia | by_evaluation].
  - rewrite (H4 [RecentArticle "a" (Some 6000%Z) (Some "1970-01-01");
                 RecentArticle "b" (Some 5000%Z) (Some "1970-01-01");
                 RecentArticle "c" (Some 4000%Z) (Some "1970-01-01");
                 RecentArticle "d" (Some 3000%Z) (Some "1970-01-01");
                 RecentArticle "e" (Some 2000%Z) (Some "1970-01-01");
                 RecentArticle "f" (Some 2000%Z) (Some "1970-01-01")]
                (RecentArticle "e" (Some 2000%Z) (Some "1970-01-01"))
                2000%Z);
      [by_evaluation | by_decision | by_evaluation | simpl; lia
      | reflexivity | reflexivity].
Defined.

(** C1 as stated fails for Op4: six articles of one source, the fifth and
    the sixth without a date; the sixth ties the fifth on the primary key
    and is none of the first four, yet it is not returned. *)
Lemma top5_with_ties_recent_null_fifth :
  ∃ articles,
    recent_by_source_aggregate Calendar.toDate Calendar.dateToString
      recent_null_tail (lower (strip "bbc")) = Some articles
    ∧ 5 < length articles
    ∧ handle_recent_by_source Calendar.toDate Calendar.dateToString
        recent_null_tail "bbc"
      ≠ RecentArticles
          (top5_with_ties publishedDate title_and_instant articles).
Proof.
  eexists. split; [by_evaluation|]. split; [simpl; lia|].
  vm_compute. intros H. discriminate H.
Qed.

Lemma at_most_five_all_returned_witness :
  handle_common_words cats "news" = TopWords [GroupRow "cats" 3]
  ∧ handle_top_sources_2015 Calendar.toDate Calendar.year cats
    = TopSources [GroupRow "A" 1]
  ∧ handle_recent_by_source Calendar.toDate Calendar.dateToString
      same_instant_ab "bbc"
    = RecentArticles
        [RecentArticle "first" (Some sept1) (Some "2015-09-01");
         RecentArticle "second" (Some sept1) (Some "2015-09-01")].
Proof.
  destruct (at_most_five_all_returned Calendar.toDate Calendar.year
              Calendar.dateToString cats "news") as (H1 & H3 & _).
  destruct (at_most_five_all_returned Calendar.toDate Calendar.year
              Calendar.dateToString same_instant_ab "bbc") as (_ & _ & H4).
  split; [|split].
  - destruct (H1 [GroupRow "cats" 3]) as [-> _];
      [by_decision | by_evaluation | simpl; lia | reflexivity].
  - destruct (H3 [GroupRow "A" 1]) as [-> _];
      [by_evaluation | simpl; lia | reflexivity].
  - rewrite (H4 [RecentArticle "first" (Some sept1) (Some "2015-09-01");
                 RecentArticle "second" (Some sept1) (Some "2015-09-01")]);
      [reflexivity | by_decision | by_evaluation | simpl; lia
      | by_decision].
Defined.

Lemma recent_null_fifth_first_five_witness :
  printed (match handle_recent_by_source Calendar.toDate
                   Calendar.dateToString recent_null_tail "bbc" with
           | RecentArticles result => result
           | _ => []
           end)
  = [("a", Some "1970-01-01"); ("b", Some "1970-01-01");
     ("c", Some "1970-01-01"); ("d", Some "1970-01-01"); ("e", None)].
Proof.
  destruct (recent_null_fifth_first_five Calendar.toDate
              Calendar.dateToString recent_null_tail "bbc"
              [RecentArticle "a" (Some 5000%Z) (Some "1970-01-01");
               RecentArticle "b" (Some 4000%Z) (Some "1970-01-01");
               RecentArticle "c" (Some 3000%Z) (Some "1970-01-01");
               RecentArticle "d" (Some 2000%Z) (Some "1970-01-01");
               RecentArticle "e" None None;
               RecentArticle "f" None None]
              (RecentArticle "e" None None)) as [-> _];
    [by_decision | by_evaluation | reflexivity | reflexivity | reflexivity].
Defined.

Lemma date_representation_equivalence_witness :
  handle_article_count Calendar.toDate Calendar.dateToString
      Calendar.strptime_ok sample "2015-09-01"
    = handle_article_count Calendar.toDate Calendar.dateToString
        Calendar.strptime_ok sample_native "2015-09-01"
  ∧ handle_top_sources_2015 Calendar.toDate Calendar.year sample
    = handle_top_sources_2015 Calendar.toDate Calendar.year sample_native
  ∧ handle_recent_by_source Calendar.toDate Calendar.dateToString sample "a"
    = handle_recent_by_source Calendar.toDate Calendar.dateToString
        sample_native "a".
Proof.
  apply (date_representation_equivalence Calendar.toDate Calendar.year
           Calendar.dateToString Calendar.strptime_ok).
  unfold sample, sample_native.
  repeat (constructor;
          [repeat split; simpl;
           first [apply same_stored
                 | apply string_native; vm_compute; reflexivity]|]).
  constructor.
Defined.

(** C9, at the input where the code departs from it.  Two articles of one
    source published at the same instant: the store may hold them in either
    order, both orders are sorted by [publishedDate] descending, and Op4
    prints them in the order it received them. *)
Theorem recent_order_follows_store_order :
  same_instant_ab ≡ₚ same_instant_ba
  ∧ printed (match handle_recent_by_source Calendar.toDate
                     Calendar.dateToString same_instant_ab "bbc" with
             | RecentArticles result => result
             | _ => []
             end)
    = [("first", Some "2015-09-01"); ("second", Some "2015-09-01")]
  ∧ printed (match handle_recent_by_source Calendar.toDate
                     Calendar.dateToString same_instant_ba "bbc" with
             | RecentArticles result => result
             | _ => []
             end)
    = [("second", Some "2015-09-01"); ("first", Some "2015-09-01")]
  ∧ (let first :=
       DatedArticle "first" (PDate sept1) (Some sept1) (Some "2015-09-01") in
     let second :=
       DatedArticle "second" (PDate sept1) (Some sept1) (Some "2015-09-01") in
     mapM (project_dated Calendar.toDate Calendar.dateToString)
          same_instant_ab = Some [first; second]
     ∧ sort_contract publishedDate_desc [first; second] [first; second]
     ∧ sort_contract publishedDate_desc [first; second] [second; first]).
Proof.
  split; [apply perm_swap|].
  split; [by_evaluation|]. split; [by_evaluation|].
  cbv zeta. split; [by_evaluation|].
  split; (split; [done || apply perm_swap|]);
    repeat constructor; unfold publishedDate_desc; simpl; lia.
Qed.

Lemma article_count_report_witness :
  handle_article_count Calendar.toDate Calendar.dateToString
    Calendar.strptime_ok balanced_day "2015-09-01"
  = Counts 3 3 SameNumber
  ∧ handle_article_count Calendar.toDate Calendar.dateToString
      Calendar.strptime_ok balanced_day "2015-09-02"
    = NoArticles.
Proof.
  split.
  - rewrite (article_count_report Calendar.toDate Calendar.dateToString
               Calendar.strptime_ok balanced_day "2015-09-01");
      [by_evaluation | by_decision | by_evaluation
      | by_decision].
  - rewrite (article_count_report Calendar.toDate Calendar.dateToString
               Calendar.strptime_ok balanced_day "2015-09-02");
      [by_evaluation | by_decision | by_evaluation
      | by_decision].
Defined.

(** C7, at the input where the code departs from it.  [strptime] accepts
    the day typed without zero padding, ["2015-9-1"], as 1 September 2015,
    whose canonical day string is ["2015-09-01"]; three news and three blog
    articles of the collection have that canonical day.  Op2 matches the
    typed text itself against the canonical day strings and reports "no
    articles"; for the same day typed as ["2015-09-01"] it reports three
    news articles, three blog articles and a tie. *)
Theorem article_count_unpadded_day :
  Calendar.strptime (strip "2015-9-1") = Some (2015, 9, 1)%Z
  ∧ Calendar.strptime (strip "2015-09-01") = Some (2015, 9, 1)%Z
  ∧ Calendar.strftime (2015, 9, 1)%Z = "2015-09-01"
  ∧ length (filter (published_on Calendar.toDate Calendar.dateToString
                      "2015-09-01" "news") balanced_day) = 3
  ∧ length (filter (published_on Calendar.toDate Calendar.dateToString
                      "2015-09-01" "blog") balanced_day) = 3
  ∧ handle_article_count Calendar.toDate Calendar.dateToString
      Calendar.strptime_ok balanced_day "2015-9-1"
    = NoArticles
  ∧ handle_article_count Calendar.toDate Calendar.dateToString
      Calendar.strptime_ok balanced_day "2015-09-01"
    = Counts 3 3 SameNumber.
Proof. repeat split; by_evaluation. Qed.

(** C5.  For the records that match the selector, Op1 tokenizes the
    lowercased content exactly as the specification says (maximal runs of
    letters, digits, underscore and hyphen, left to right); a token gets a
    row exactly when it occurs, and its count is the number of its
    occurrences over all matching records; each token has one row; the rows
    are ordered by count descending, then token ascending; empty or null
    content gives no token; and ["Cats. cats, CATS!"] gives [cats] with
    count 3. *)
Theorem common_words_tokenized_and_counted (collection : list article)
    (selector : string) :
  let matched := filter (λ a, lower (media_type a) = selector) collection in
  let text := λ a : article, lower (default EmptyString (content a)) in
  let all_results := common_words_aggregate collection selector in
  Forall (λ a, ∀ toks,
            tokens_of (text a) toks ↔ toks = regexFindAll (text a)) matched
  ∧ (∀ r, r ∈ all_results ↔
          0 < count r ∧
          count r = occurrences (_id r)
                      (mjoin ((λ a, regexFindAll (text a)) <$> matched)))
  ∧ NoDup (_id <$> all_results)
  ∧ StronglySorted count_desc_id_asc all_results
  ∧ regexFindAll (lower (default EmptyString None)) = []
  ∧ regexFindAll (lower (default EmptyString (Some EmptyString))) = []
  ∧ regexFindAll (lower "Cats. cats, CATS!") = ["cats"; "cats"; "cats"]
  ∧ handle_common_words cats "news" = TopWords [GroupRow "cats" 3].
Proof.
  cbv zeta. split; [|split; [|split; [|split]]].
  - apply Forall_forall. intros a _ toks. split.
    + apply tokens_of_regexFindAll.
    + intros ->. apply regexFindAll_tokens_of.
  - intros r. apply common_words_aggregate_rows.
  - apply common_words_aggregate_NoDup.
  - apply common_words_aggregate_sorted.
  - repeat split; by_evaluation.
Qed.

(** C6.  Op3 groups on the raw [source]: the count of a row is the number
    of 2015 articles whose [source] is exactly the row's key, so [BBC] and
    [bbc] are two rows.  Op1 compares the lowercased [media-type] and Op4
    the lowercased [source] with the lowercased input: the letter case of
    the stored value and of the input does not change their results. *)
Theorem case_sensitivity_by_operation (toDate : string → option Z)
    (year : Z → Z) (dateToString : Z → string)
    (collection : list article) (input : string) :
  (∀ sources r,
     top_sources_aggregate toDate year collection = Some sources →
     r ∈ sources ↔
     0 < count r ∧
     count r = occurrences (_id r)
                 (source <$> filter (in_2015 toDate year) collection))
  ∧ handle_top_sources_2015 Calendar.toDate Calendar.year case_pair
    = TopSources [GroupRow "BBC" 1; GroupRow "bbc" 1]
  ∧ handle_common_words (lower_media_type <$> collection) input
    = handle_common_words collection input
  ∧ handle_common_words collection "NEWS"
    = handle_common_words collection "news"
  ∧ handle_common_words case_pair "news" = TopWords [GroupRow "cats" 2]
  ∧ handle_recent_by_source toDate dateToString collection "BBC"
    = handle_recent_by_source toDate dateToString collection "bbc"
  ∧ handle_recent_by_source toDate dateToString
      (lower_source <$> collection) input
    = handle_recent_by_source toDate dateToString collection input
  ∧ printed (match handle_recent_by_source Calendar.toDate
                     Calendar.dateToString case_pair "BBC" with
             | RecentArticles result => result
             | _ => []
             end)
    = [("Lower", Some "2015-09-01"); ("Upper", Some "2015-09-01")].
Proof.
  split; [|split; [|split; [|split; [|split; [|split; [|split]]]]]].
  - intros sources r. apply top_sources_aggregate_rows.
  - by_evaluation.
  - apply common_words_stored_case.
  - apply common_words_input_case. by_evaluation.
  - by_evaluation.
  - apply recent_input_case; [by_decision | by_decision | by_evaluation].
  - apply recent_stored_case.
  - by_evaluation.
Qed.

Lemma case_sensitivity_by_operation_witness :
  0 < 1 ∧
  1 = occurrences "bbc"
        (source <$> filter (in_2015 Calendar.toDate Calendar.year) case_pair).
Proof.
  destruct (case_sensitivity_by_operation Calendar.toDate Calendar.year
              Calendar.dateToString case_pair "bbc") as [H _].
  apply (H [GroupRow "BBC" 1; GroupRow "bbc" 1] (GroupRow "bbc" 1));
    [by_evaluation|].
  by_decision.
Defined.
End QueryFacts.

Module LoaderFacts.
Import Text Loader LoaderSpec Spec.

Lemma BATCH_SIZE_pos : 0 < BATCH_SIZE.
Proof. unfold BATCH_SIZE. lia. Qed.


Lemma all_in_object fields members :
  all_in fields (JObject members)
  = Some (forallb (λ field, bool_decide (field ∈ members.*1)) fields).
Proof.
  induction fields as [|f fields IH]; [done|]. simpl.
  destruct (bool_decide (f ∈ members.*1)); [exact IH | done].
Qed.

Lemma accepted_cons ln lines :
  accepted (ln :: lines) = accepted_line ln ++ accepted lines.
Proof. done. Qed.

Lemma accepted_rejected ln : rejected ln = true → accepted_line ln = [].
Proof.
  destruct ln as [| |[| | | | |members]]; try done.
  unfold accepted_line, rejected. rewrite all_in_object.
  by intros ->%negb_true_iff.
Qed.

Section RunFacts.
Variable collection : Type.
Variable insert_many : collection → list json → option collection.

Local Abbreviation state := (Loader.state collection).
Local Abbreviation process_line := (Loader.process_line collection insert_many).
Local Abbreviation read_lines := (Loader.read_lines collection insert_many).
Local Abbreviation finish := (Loader.finish collection insert_many).
Local Abbreviation main := (Loader.main collection insert_many).
Local Abbreviation warn := (Loader.warn collection).
Local Abbreviation batch := (Loader.batch collection).
Local Abbreviation calls := (Loader.calls collection).
Local Abbreviation output := (Loader.output collection).
Local Abbreviation articles := (Loader.articles collection).
Local Abbreviation total_documents := (Loader.total_documents collection).
Local Abbreviation batch_count := (Loader.batch_count collection).

(** *** Rejected lines *)

Lemma process_line_rejected (st : state) line_num ln :
  rejected ln = true →
  ∃ w, (w = WarnInvalidJson line_num ∨ w = WarnMissingFields line_num)
       ∧ process_line st line_num ln = warn st w.
Proof.
  destruct ln as [| |[| | | | |members]]; try done.
  - intros _. exists (WarnInvalidJson line_num). auto.
  - unfold rejected, Loader.process_line. rewrite all_in_object.
    intros ->%negb_true_iff. exists (WarnMissingFields line_num). auto.
Qed.

Lemma effect_warn (st : state) e : effect (warn st e) = effect st.
Proof. done. Qed.

(** What a line does to the batch, the counters, the store and the calls
    depends neither on the line number nor on what was printed before. *)
Lemma process_line_effect (st1 st2 : state) n1 n2 ln :
  effect st1 = effect st2 →
  effect (process_line st1 n1 ln) = effect (process_line st2 n2 ln).
Proof.
  destruct st1 as [b1 t1 k1 a1 c1 o1], st2 as [b2 t2 k2 a2 c2 o2].
  unfold effect. simpl. intros [= -> -> -> -> ->].
  destruct ln as [| |document]; [done..|]. unfold Loader.process_line.
  destruct (all_in required_fields document) as [[|]|]; [|done..].
  simpl. case_decide; [|done]. by destruct (insert_many a2 _).
Qed.

Lemma read_lines_effect lines : ∀ (st1 st2 : state) n1 n2,
  effect st1 = effect st2 →
  effect (read_lines st1 n1 lines)
  = effect (read_lines st2 n2 (filter (λ ln, rejected ln = false) lines)).
Proof.
  induction lines as [|ln lines IH]; intros st1 st2 n1 n2 H; [done|].
  rewrite filter_cons. simpl. destruct (rejected ln) eqn:E.
  - rewrite decide_False by done. apply IH.
    destruct (process_line_rejected st1 n1 ln E) as (w & _ & ->).
    by rewrite effect_warn.
  - rewrite decide_True by done. simpl. apply IH.
    by apply process_line_effect.
Qed.

Lemma finish_effect (st1 st2 : state) :
  effect st1 = effect st2 →
  effect (finish st1).1 = effect (finish st2).1
  ∧ (finish st1).2 = (finish st2).2.
Proof.
  destruct st1 as [b1 t1 k1 a1 c1 o1], st2 as [b2 t2 k2 a2 c2 o2].
  unfold effect. simpl. intros [= -> -> -> -> ->].
  unfold Loader.finish. simpl. destruct b2 as [|d b2]; [done|].
  by destruct (insert_many a2 _).
Qed.

(** *** Only validated records reach a batch *)

Lemma process_line_validated (st : state) n ln :
  Forall validated (batch st) → Forall (Forall validated) (calls st) →
  Forall validated (batch (process_line st n ln))
  ∧ Forall (Forall validated) (calls (process_line st n ln)).
Proof.
  intros Hb Hc. destruct ln as [| |document]; [done..|].
  unfold Loader.process_line.
  destruct (all_in required_fields document) as [[|]|] eqn:E; [|done..].
  assert (Forall validated (batch st ++ [document])) as Hb'.
  { apply Forall_app. split; [done|]. by repeat constructor. }
  case_decide; [|done].
  destruct (insert_many _ _); simpl; (split; [done|]);
    apply Forall_app; split; by repeat constructor.
Qed.

Lemma read_lines_validated lines : ∀ (st : state) n,
  Forall validated (batch st) → Forall (Forall validated) (calls st) →
  Forall validated (batch (read_lines st n lines))
  ∧ Forall (Forall validated) (calls (read_lines st n lines)).
Proof.
  induction lines as [|ln lines IH]; intros st n Hb Hc; [done|].
  simpl. destruct (process_line_validated st n ln Hb Hc). by apply IH.
Qed.

Lemma finish_validated (st : state) :
  Forall validated (batch st) → Forall (Forall validated) (calls st) →
  Forall (Forall validated) (calls (finish st).1).
Proof.
  intros Hb Hc. unfold Loader.finish.
  destruct (Loader.batch _ st) as [|d b] eqn:E; [done|].
  destruct (insert_many _ _); simpl;
    (apply Forall_app; split; [done|]);
    (constructor; [exact Hb | constructor]).
Qed.

Lemma main_validated fresh lines :
  Forall (Forall validated) (calls (main fresh lines).1).
Proof.
  unfold Loader.main.
  destruct (read_lines_validated lines (State collection [] 0 0 fresh [] []) 1)
    as [Hb Hc]; [constructor..|].
  by apply finish_validated.
Qed.


(** *** Batches *)

#[local] Opaque BATCH_SIZE.

Lemma reported_sizes_app out1 out2 :
  reported_sizes (out1 ++ out2) = reported_sizes out1 ++ reported_sizes out2.
Proof. apply omap_app. Qed.

Lemma batch_invariant_warn (st : state) docs e :
  reported_size e = None →
  batch_invariant st docs → batch_invariant (warn st e) docs.
Proof.
  intros He (H1 & H2 & H3 & H4 & H5 & H6).
  repeat split; try done. simpl.
  rewrite reported_sizes_app, H6. unfold reported_sizes at 1. simpl.
  rewrite He. apply app_nil_r.
Qed.

Lemma process_line_invariant (st : state) n ln docs :
  reliable insert_many →
  batch_invariant st docs →
  batch_invariant (process_line st n ln) (docs ++ accepted_line ln).
Proof.
  intros Hrel Hinv.
  destruct ln as [| |document].
  - by rewrite app_nil_r.
  - rewrite app_nil_r. by apply batch_invariant_warn.
  - unfold Loader.process_line, accepted_line.
    destruct (all_in required_fields document) as [[|]|];
      [|rewrite app_nil_r; by apply batch_invariant_warn..].
    destruct Hinv as (H1 & H2 & H3 & H4 & H5 & H6).
    pose proof BATCH_SIZE_pos as Hpos.
    case_decide as Hfull.
    + rewrite length_app in Hfull. simpl in Hfull.
      destruct (Hrel (Loader.articles _ st)
                  (Loader.batch _ st ++ [document])) as [articles' ->].
      repeat split; simpl.
      * rewrite join_app. simpl. rewrite !app_nil_r, <- H1.
        by rewrite app_assoc.
      * apply Forall_app. split; [done|]. constructor; [|constructor].
        rewrite length_app. simpl. lia.
      * done.
      * rewrite !length_app. simpl. rewrite H4. lia.
      * rewrite length_app. simpl. lia.
      * rewrite reported_sizes_app, H6, fmap_app. done.
    + rewrite length_app in Hfull. simpl in Hfull.
      repeat split; simpl; try done.
      * rewrite <- H1. by rewrite app_assoc.
      * rewrite length_app. simpl. lia.
Qed.

Lemma read_lines_invariant lines : ∀ (st : state) n docs,
  reliable insert_many →
  batch_invariant st docs →
  batch_invariant (read_lines st n lines) (docs ++ accepted lines).
Proof.
  induction lines as [|ln lines IH]; intros st n docs Hrel Hinv.
  - by rewrite app_nil_r.
  - rewrite accepted_cons, app_assoc. simpl. apply IH; [done|].
    by apply process_line_invariant.
Qed.




(** With a store that accepts every batch the run ends normally and has
    inserted the validated records, in file order. *)
Lemma main_inserts_accepted (fresh : collection) (lines : list line) :
  reliable insert_many →
  (main fresh lines).2 = Exit0
  ∧ mjoin (calls (main fresh lines).1) = accepted lines.
Proof.
  intros Hrel. unfold Loader.main.
  set (st := Loader.read_lines _ _ _ _ _).
  assert (batch_invariant st (accepted lines)) as (H1 & _).
  { apply (read_lines_invariant lines _ 1 [] Hrel).
    pose proof BATCH_SIZE_pos. repeat split; try done; simpl; lia. }
  unfold Loader.finish.
  destruct (Loader.batch _ st) as [|d b] eqn:E.
  - simpl. by rewrite app_nil_r in H1.
  - destruct (Hrel (Loader.articles _ st) (d :: b)) as [articles' ->].
    simpl. split; [done|]. rewrite join_app. simpl. by rewrite app_nil_r.
Qed.



(** X16.  A line that fails JSON parsing or parses to an object lacking a
    required field only adds a warning: the batch, the counters, the store
    and the insert calls are unchanged and the loop goes on with the next
    line.  Every document of every insert call has passed the test of the
    loop, so an object among them has all six fields.  The run ends as it
    would without the rejected lines, and with a store that accepts every
    batch it ends normally having inserted exactly the records that pass the
    test, among them every object of the file that has the six fields. *)
Theorem rejected_lines_never_persisted (st : state) (line_num : nat)
    (ln : line) (rest lines : list line) (fresh : collection) :
  (rejected ln = true →
   ∃ w, (w = WarnInvalidJson line_num ∨ w = WarnMissingFields line_num)
        ∧ process_line st line_num ln = warn st w
        ∧ effect (process_line st line_num ln) = effect st
        ∧ read_lines st line_num (ln :: rest)
          = read_lines (warn st w) (S line_num) rest)
  ∧ Forall (Forall validated) (calls (main fresh lines).1)
  ∧ (∀ b members field,
       b ∈ calls (main fresh lines).1 → JObject members ∈ b →
       field ∈ required_fields → field ∈ members.*1)
  ∧ effect (main fresh lines).1
    = effect (main fresh (filter (λ l, rejected l = false) lines)).1
  ∧ (main fresh lines).2
    = (main fresh (filter (λ l, rejected l = false) lines)).2
  ∧ (reliable insert_many →
     (main fresh lines).2 = Exit0
     ∧ mjoin (calls (main fresh lines).1) = accepted lines
     ∧ ∀ members,
         Parsed (JObject members) ∈ lines →
         (∀ field, field ∈ required_fields → field ∈ members.*1) →
         JObject members ∈ mjoin (calls (main fresh lines).1)).
Proof.
  split; [|split; [|split; [|split; [|split]]]].
  - intros Hrej.
    destruct (process_line_rejected st line_num ln Hrej) as (w & Hw & Hp).
    exists w. split; [done|]. split; [done|]. split.
    + by rewrite Hp.
    + simpl. by rewrite Hp.
  - apply main_validated.
  - intros b members field Hb Hm Hf.
    pose proof (main_validated fresh lines) as Hv.
    rewrite Forall_forall in Hv. specialize (Hv b Hb).
    rewrite Forall_forall in Hv. specialize (Hv _ Hm).
    unfold validated in Hv. rewrite all_in_object in Hv.
    assert (forallb (λ f, bool_decide (f ∈ members.*1)) required_fields
            = true) as Hall by congruence.
    rewrite forallb_forall in Hall.
    apply list_elem_of_In in Hf. apply Hall in Hf.
    by apply bool_decide_eq_true in Hf.
  - unfold Loader.main. apply finish_effect. by apply read_lines_effect.
  - unfold Loader.main. apply finish_effect. by apply read_lines_effect.
  - intros Hrel.
    destruct (main_inserts_accepted fresh lines Hrel) as [Hexit Hcalls].
    split; [done|]. split; [done|].
    intros members Hin Hall. rewrite Hcalls. unfold accepted.
    apply list_elem_of_bind. exists (Parsed (JObject members)).
    split; [|done]. unfold accepted_line. rewrite all_in_object.
    assert (forallb (λ f, bool_decide (f ∈ members.*1)) required_fields
            = true) as ->.
    { apply forallb_forall. intros f Hf%list_elem_of_In.
      apply bool_decide_eq_true. by apply Hall. }
    by left.
Qed.

End RunFacts.


(** The example of the specification, with three lines to skip in between:
    2500 valid lines give three bulk inserts of 1000, 1000 and 500 records
    and a reported total of 2500. *)
Example ingest_2500 :
  let run := main (list json) list_insert_many [] file_2500 in
  (length <$> calls _ run.1, reported_sizes (output _ run.1),
   total_documents _ run.1, batch_count _ run.1, run.2)
  = ([1000; 1000; 500], [1000; 1000; 500], 2500, 3, Exit0).
Proof. vm_compute. reflexivity. Qed.

Lemma rejected_lines_never_persisted_witness :
  ∃ w, (w = WarnInvalidJson 7 ∨ w = WarnMissingFields 7)
       ∧ process_line (list json) list_insert_many
           (State _ [full_record] 0 0 [] [] []) 7 (Parsed no_title)
         = warn _ (State _ [full_record] 0 0 [] [] []) w
       ∧ effect (process_line (list json) list_insert_many
                   (State _ [full_record] 0 0 [] [] []) 7 (Parsed no_title))
         = effect (State _ [full_record] 0 0 [] [] [])
       ∧ read_lines (list json) list_insert_many
           (State _ [full_record] 0 0 [] [] []) 7
           [Parsed no_title; Parsed full_record]
         = read_lines (list json) list_insert_many
             (warn _ (State _ [full_record] 0 0 [] [] []) w) 8
             [Parsed full_record].
Proof.
  destruct (rejected_lines_never_persisted (list json) list_insert_many
              (State _ [full_record] 0 0 [] [] []) 7 (Parsed no_title)
              [Parsed full_record] file_2500 []) as [H _].
  apply H. vm_compute. reflexivity.
Defined.

(** C8, at the input where the code departs from it.  A line that holds the
    JSON string ["id content title media-type source published"], or the
    JSON array of the six names, is no object and has no field; yet
    [field in document] is a substring test on the one and a membership test
    on the other, and holds for the six names.  The line gets no warning, is
    added to the batch and is handed to [insert_many] with the record before
    it.  A store that accepts it has persisted it when the run ends; a store
    that refuses a document that is no object raises, the run ends with
    status 1, and the record before it is lost with it. *)
Theorem non_object_lines_reach_store :
  Reload.is_object names_string = false
  ∧ Reload.is_object names_array = false
  ∧ rejected (Parsed names_string) = false
  ∧ all_in required_fields names_string = Some true
  ∧ all_in required_fields names_array = Some true
  ∧ (let run := main (list json) list_insert_many []
                  [Parsed full_record; Parsed names_string;
                   Parsed names_array] in
     calls _ run.1 = [[full_record; names_string; names_array]]
     ∧ articles _ run.1 = [full_record; names_string; names_array]
     ∧ output _ run.1 = [InsertedFinalBatch 1 3; Completed 3]
     ∧ run.2 = Exit0)
  ∧ (let run := main (list json) Reload.object_insert_many []
                  [Parsed full_record; Parsed names_string] in
     calls _ run.1 = [[full_record; names_string]]
     ∧ articles _ run.1 = []
     ∧ output _ run.1 = [ErrorDuringProcessing]
     ∧ run.2 = Exit1)
  ∧ (let run := main (list json) Reload.object_insert_many []
                  [Parsed full_record] in
     articles _ run.1 = [full_record] ∧ run.2 = Exit0).
Proof. cbv zeta. repeat split; vm_compute; reflexivity. Qed.

End LoaderFacts.

(** * Further properties of the queries *)

Module QueryExtras.
Import Text Store Query Spec SpecMore TextFacts StoreFacts QueryFacts.

(** *** The selection keeps everything down to the fifth entry's key *)

Section Threshold.
Context {A K I : Type} `{EqDecision K, EqDecision I}.
Variable key : A → K.
Variable ident : A → I.
Variable le : relation K.
Context `{∀ x y, Decision (le x y)}.
Variable R : relation A.
Hypothesis R_key : ∀ a b, R a b → le (key b) (key a).
Hypothesis le_refl : ∀ x, le x x.
Hypothesis le_antisym : ∀ x y, le x y → le y x → x = y.

Lemma filter_all (P : A → Prop) `{∀ x, Decision (P x)} (l : list A) :
  Forall P l → filter P l = l.
Proof.
  induction 1 as [|x l Hx _ IH]; [done|].
  by rewrite filter_cons_True, IH.
Qed.

Lemma filter_iff_in (P Q : A → Prop)
    `{∀ x, Decision (P x), ∀ x, Decision (Q x)} (l : list A) :
  (∀ x, x ∈ l → P x ↔ Q x) → filter P l = filter Q l.
Proof.
  induction l as [|x l IH]; intros HPQ; [done|].
  rewrite !filter_cons.
  rewrite IH by (intros y Hy; apply HPQ; by right).
  destruct (decide (P x)) as [HP|HP], (decide (Q x)) as [HQ|HQ];
    try done; exfalso; apply (HPQ x) in HP || apply HP, (HPQ x);
    try done; by left.
Qed.

(** On a list sorted by descending key whose identity keys are distinct,
    Top-N-With-Ties keeps exactly the entries whose key is at least the
    fifth entry's key. *)
Lemma top5_with_ties_threshold l fifth :
  StronglySorted R l → NoDup (ident <$> l) → l !! 4 = Some fifth →
  top5_with_ties key ident l = filter (λ e, le (key fifth) (key e)) l.
Proof.
  intros Hs Hnd H5. unfold top5_with_ties. rewrite H5.
  assert (l = take 4 l ++ fifth :: drop 5 l) as Hl.
  { rewrite <- (take_drop 4 l) at 1. f_equal. by apply drop_S. }
  assert (∀ e, e ∈ take 4 l → le (key fifth) (key e)) as Hhead.
  { intros e He. apply R_key. rewrite Hl in Hs.
    eapply StronglySorted_app_1_elem_of; [exact Hs | done | by left]. }
  assert (∀ e, e ∈ fifth :: drop 5 l → le (key e) (key fifth)) as Htail.
  { intros e [->|He]%elem_of_cons; [done|]. apply R_key.
    rewrite Hl in Hs. apply StronglySorted_app in Hs as (_ & _ & Hs).
    apply StronglySorted_cons in Hs as [Hs _].
    rewrite Forall_forall in Hs. by apply Hs. }
  assert (∀ e, e ∈ fifth :: drop 5 l → ident e ∉ ident <$> take 4 l) as Hid.
  { intros e He Hin. rewrite Hl, fmap_app in Hnd.
    apply NoDup_app in Hnd as (_ & Hd & _). apply (Hd _ Hin).
    by apply list_elem_of_fmap_2. }
  pose proof (top5_with_ties_filter_head key ident l fifth) as Hnone.
  remember (take 4 l) as top4 eqn:Htop. clear Htop.
  remember (fifth :: drop 5 l) as tail eqn:Htl. clear Htl. subst l.
  rewrite !filter_app, Hnone. simpl.
  rewrite (filter_all (λ e, le (key fifth) (key e)) top4)
    by (by apply Forall_forall).
  f_equal. apply filter_iff_in. intros e He. split.
  - intros [-> _]. done.
  - intros Hle. split; [|by apply Hid].
    apply le_antisym; [by apply Htail | done].
Qed.

End Threshold.

Section Thresholds.
Variable toDate : string → option Z.
Variable year : Z → Z.
Variable dateToString : Z → string.

Lemma count_desc_id_asc_count a b :
  count_desc_id_asc a b → count b ≤ count a.
Proof. intros [?|[? _]]; lia. Qed.

(** X1.  With at least five rows, Op1 and Op3 return exactly the rows whose
    count is at least the fifth row's count, in the sorted order; so the
    result has at least five rows and is a prefix of the sorted list. *)
Theorem grouped_result_is_threshold (collection : list article)
    (input : string) :
  (∀ words fifth,
     lower (strip input) ∈ ["news"; "blog"] →
     common_words_aggregate collection (lower (strip input)) = words →
     words !! 4 = Some fifth →
     handle_common_words collection input
       = TopWords (filter (λ r, count fifth ≤ count r) words)
     ∧ take 5 words
       `prefix_of` filter (λ r, count fifth ≤ count r) words
     ∧ filter (λ r, count fifth ≤ count r) words `prefix_of` words)
  ∧ (∀ sources fifth,
       top_sources_aggregate toDate year collection = Some sources →
       sources !! 4 = Some fifth →
       handle_top_sources_2015 toDate year collection
         = TopSources (filter (λ r, count fifth ≤ count r) sources)
       ∧ take 5 sources
         `prefix_of` filter (λ r, count fifth ≤ count r) sources
       ∧ filter (λ r, count fifth ≤ count r) sources `prefix_of` sources).
Proof.
  assert (∀ rows fifth,
            StronglySorted count_desc_id_asc rows →
            NoDup (_id <$> rows) → rows !! 4 = Some fifth →
            top5_with_ties count _id rows
              = filter (λ r, count fifth ≤ count r) rows
            ∧ take 5 rows `prefix_of` filter (λ r, count fifth ≤ count r) rows
            ∧ filter (λ r, count fifth ≤ count r) rows `prefix_of` rows)
    as Hrows.
  { intros rows fifth Hs Hnd H5. split.
    - apply (top5_with_ties_threshold count _id le count_desc_id_asc);
        [apply count_desc_id_asc_count | lia | lia | done..].
    - assert (rows = take 5 rows ++ drop 5 rows) as Hl
        by (by rewrite take_drop).
      assert (Forall (λ r, count fifth ≤ count r) (take 5 rows)) as Hhead.
      { apply Forall_forall. intros e [i He]%list_elem_of_lookup.
        apply lookup_take_Some in He as [He Hi5].
        destruct (decide (i = 4)) as [->|Hne]; [naive_solver|].
        apply count_desc_id_asc_count.
        rewrite <- (take_drop_middle rows 4 fifth H5) in Hs, He.
        eapply StronglySorted_app_1_elem_of; [exact Hs| |by left].
        apply list_elem_of_lookup. exists i.
        rewrite lookup_app_l in He; [done|].
        rewrite length_take. apply lookup_lt_Some in H5. lia. }
      assert (StronglySorted count_desc_id_asc (drop 5 rows)) as Hsd.
      { rewrite Hl in Hs. by apply StronglySorted_app in Hs as (_ & _ & ?). }
      split.
      + rewrite Hl at 2. rewrite filter_app.
        rewrite (filter_all _ _ Hhead). by eexists.
      + rewrite Hl at 1 2. rewrite filter_app, (filter_all _ _ Hhead).
        apply prefix_app. clear Hl Hhead Hs Hnd H5.
        induction Hsd as [|r rest Hrest IHs Hall]; [done|].
        rewrite filter_cons. case_decide as Hr.
        * by apply prefix_cons.
        * rewrite (filter_none (λ r0, count fifth ≤ count r0) rest);
            [apply prefix_nil|].
          eapply Forall_impl; [exact Hall|]. intros x Hx%count_desc_id_asc_count.
          simpl. lia. }
  split.
  - intros words fifth Hin Hagg H5.
    pose proof (common_words_aggregate_NoDup collection
                  (lower (strip input))) as Hnd.
    pose proof (common_words_aggregate_sorted collection
                  (lower (strip input))) as Hs.
    rewrite Hagg in Hnd, Hs.
    destruct (Hrows words fifth Hs Hnd H5) as (Heq & Hp1 & Hp2).
    split; [|done].
    rewrite handle_common_words_eq, Hagg by done.
    pose proof (lookup_lt_Some _ _ _ H5) as Hlen.
    destruct words as [|r words]; [done|]. cbv zeta.
    by rewrite decide_True, Heq by lia.
  - intros sources fifth Hagg H5.
    pose proof (top_sources_aggregate_NoDup _ _ _ _ Hagg) as Hnd.
    pose proof (top_sources_aggregate_sorted _ _ _ _ Hagg) as Hs.
    destruct (Hrows sources fifth Hs Hnd H5) as (Heq & Hp1 & Hp2).
    split; [|done].
    rewrite handle_top_sources_2015_eq, Hagg.
    pose proof (lookup_lt_Some _ _ _ H5) as Hlen.
    destruct sources as [|r sources]; [done|]. cbv zeta.
    by rewrite decide_True, Heq by lia.
Qed.

End Thresholds.

(** *** What the Op4 pipeline returns *)

#[export] Instance publishedDate_desc_trans : Transitive publishedDate_desc.
Proof.
  intros a b c Hab Hbc. unfold publishedDate_desc in *. by etrans.
Qed.

Lemma date_le_refl d : date_le d d.
Proof. destruct d; simpl; [lia | done]. Qed.

Lemma date_le_antisym d1 d2 : date_le d1 d2 → date_le d2 d1 → d1 = d2.
Proof. destruct d1, d2; simpl; try done. intros. f_equal. lia. Qed.

Lemma filter_nil_iff {A} (P : A → Prop) `{∀ x, Decision (P x)} (l : list A) :
  filter P l = [] ↔ Forall (λ x, ¬ P x) l.
Proof.
  split; [|apply filter_none].
  intros H0. apply Forall_forall. intros x Hx HP.
  by apply (filter_nil_not_elem_of P l x).
Qed.

Section Recent.
Variable toDate : string → option Z.
Variable year : Z → Z.
Variable dateToString : Z → string.
Variable strptime_ok : string → bool.

Lemma project_dated_recent_of a p :
  project_dated toDate dateToString a = Some p →
  recent_of toDate dateToString a = Some (project_final p)
  ∧ dateOnly4 p = dateToString <$> d_publishedDate p.
Proof.
  unfold project_dated, recent_of.
  destruct (published_date toDate (published a)) as [d|]; [|done].
  simpl. by intros [= <-].
Qed.

Lemma recent_aggregate_sorted (collection : list article)
    (source_literal : string) (articles : list recent_article) :
  recent_by_source_aggregate toDate dateToString collection source_literal
    = Some articles →
  StronglySorted recent_first articles.
Proof.
  unfold recent_by_source_aggregate. cbv zeta. intros H.
  destruct (mapM _ (filter _ collection)) as [projected|] eqn:E;
    simplify_eq/=.
  apply (StronglySorted_fmap _ publishedDate_desc recent_first);
    [done | apply (StronglySorted_merge_sort _)].
Qed.

(** X2.  When Op4's pipeline returns, its list holds exactly the articles of
    the collection whose lowercased [source] is the literal, each as title,
    normalized instant and display day; it is ordered most recent first with
    the articles without an instant last; and the display day of every entry
    is the day of its instant. *)
Theorem recent_aggregate_sorted_matches (collection : list article)
    (source_literal : string) (articles : list recent_article) :
  recent_by_source_aggregate toDate dateToString collection source_literal
    = Some articles →
  StronglySorted recent_first articles
  ∧ (∃ matches,
       mapM (recent_of toDate dateToString)
            (filter (λ a, lower (source a) = source_literal) collection)
         = Some matches
       ∧ articles ≡ₚ matches)
  ∧ Forall (λ r, date r = dateToString <$> publishedDate r) articles.
Proof.
  unfold recent_by_source_aggregate. cbv zeta. intros H.
  destruct (mapM _ (filter _ collection)) as [projected|] eqn:E;
    simplify_eq/=.
  apply mapM_Some_1 in E. split; [|split].
  - apply (StronglySorted_fmap _ publishedDate_desc recent_first);
      [done | apply (StronglySorted_merge_sort _)].
  - exists (project_final <$> projected). split.
    + apply mapM_Some_2, Forall2_fmap_r.
      eapply Forall2_impl; [exact E|].
      intros a p Hp. by apply project_dated_recent_of.
    + by rewrite merge_sort_Permutation.
  - rewrite merge_sort_Permutation. apply Forall_fmap, Forall_forall.
    intros p [i Hp]%list_elem_of_lookup. simpl.
    destruct (Forall2_lookup_r _ _ _ _ _ E Hp) as [a [_ Ha]].
    by apply project_dated_recent_of in Ha as [_ ?].
Qed.

(** X3.  When the fifth article of the sorted list has an instant and no two
    articles of the list share title and instant, Op4 returns exactly the
    articles published at or after the fifth article's instant, in sorted
    order. *)
Theorem recent_result_is_threshold (collection : list article)
    (input : string) (articles : list recent_article)
    (fifth : recent_article) (instant : Z) :
  strip input ≠ EmptyString →
  recent_by_source_aggregate toDate dateToString collection
    (lower (strip input)) = Some articles →
  articles !! 4 = Some fifth → publishedDate fifth = Some instant →
  NoDup (title_and_instant <$> articles) →
  handle_recent_by_source toDate dateToString collection input
  = RecentArticles
      (filter (λ a, date_le (Some instant) (publishedDate a)) articles).
Proof.
  intros Hne Hagg H5 Hd Hnd.
  pose proof (recent_aggregate_sorted _ _ _ Hagg) as Hs.
  rewrite handle_recent_by_source_eq, Hagg by done.
  destruct articles as [|r articles]; [done|].
  rewrite (select_recent_dated _ fifth instant) by done.
  rewrite (top5_with_ties_threshold publishedDate title_and_instant
             date_le recent_first) with (fifth := fifth);
    [by rewrite Hd | done | apply date_le_refl | apply date_le_antisym
    | done..].
Qed.

(** *** When a query raises *)

Lemma published_date_None p :
  published_date toDate p = None ↔ ∃ s, p = PString s ∧ toDate s = None.
Proof.
  destruct p as [d|s|]; simpl.
  - split; [done | by intros (s & ? & _)].
  - destruct (toDate s) eqn:E; simpl.
    + split; [done|]. intros (s' & [= <-] & E'). congruence.
    + split; [|done]. intros _. by exists s.
  - split; [done | by intros (s & ? & _)].
Qed.

Lemma article_count_raises (collection : list article) (input : string) :
  handle_article_count toDate dateToString strptime_ok collection input
    = CountRaised
  ↔ strptime_ok (strip input) = true
    ∧ Exists (unresolvable toDate) collection.
Proof.
  unfold handle_article_count, article_count_aggregate. cbv zeta.
  destruct (strptime_ok (strip input));
    [|split; [done | by intros [? _]]].
  destruct (mapM _ collection) as [projected|] eqn:E; simpl.
  - split.
    + by repeat case_match.
    + intros [_ Hex]. exfalso.
      assert (mapM (project_day toDate dateToString) collection = None)
        as Hn; [|congruence].
      apply mapM_None. eapply Exists_impl; [exact Hex|].
      intros a Ha. unfold project_day. by rewrite Ha.
  - split; [|done]. intros _. split; [done|].
    apply mapM_None in E. eapply Exists_impl; [exact E|].
    intros a. unfold project_day, unresolvable.
    by destruct (published_date toDate (published a)).
Qed.

Lemma top_sources_raises (collection : list article) :
  handle_top_sources_2015 toDate year collection = SourcesRaised
  ↔ Exists (unresolvable toDate) collection.
Proof.
  unfold handle_top_sources_2015, top_sources_aggregate.
  destruct (mapM _ collection) as [with_year|] eqn:E; simpl.
  - split.
    + by repeat case_match.
    + intros Hex. exfalso.
      assert (mapM (year_of toDate year) collection = None)
        as Hn; [|congruence].
      apply mapM_None. eapply Exists_impl; [exact Hex|].
      intros a Ha. unfold year_of. by rewrite Ha.
  - split; [|done]. intros _.
    apply mapM_None in E. eapply Exists_impl; [exact E|].
    intros a. unfold year_of, unresolvable.
    by destruct (published_date toDate (published a)).
Qed.

Lemma recent_raises (collection : list article) (input : string) :
  handle_recent_by_source toDate dateToString collection input = RecentRaised
  ↔ strip input ≠ EmptyString
    ∧ Exists (λ a, lower (source a) = lower (strip input)
                   ∧ unresolvable toDate a) collection.
Proof.
  unfold handle_recent_by_source, recent_by_source_aggregate. cbv zeta.
  case_decide as Hempty; [split; [done | by intros [? _]]|].
  destruct (mapM _ (filter _ collection)) as [projected|] eqn:E; simpl.
  - split.
    + by repeat case_match.
    + intros [_ Hex]. exfalso.
      assert (mapM (project_dated toDate dateToString)
                (filter (λ a, lower (source a) = lower (strip input))
                        collection) = None) as Hn; [|congruence].
      apply mapM_None, Exists_exists.
      apply Exists_exists in Hex as (a & Ha & Hs & Hu).
      exists a. split; [by apply list_elem_of_filter|].
      unfold project_dated. by rewrite Hu.
  - split; [|done]. intros _. split; [done|].
    apply mapM_None, Exists_exists in E as (a & Ha & Hp).
    apply list_elem_of_filter in Ha as [Hs Ha].
    apply Exists_exists. exists a. split; [done|]. split; [done|].
    unfold project_dated in Hp. unfold unresolvable.
    by destruct (published_date toDate (published a)).
Qed.

(** X4.  For ASCII input: Op2 (for a well-formed day) and Op3 raise exactly
    when some article of the whole collection stores [published] as a string
    that [$toDate] rejects, whatever its day, media type or year; Op4 raises
    exactly when such an article has the queried source. *)
Theorem aggregate_raises (collection : list article) (input : string) :
  ascii_text input →
  (handle_article_count toDate dateToString strptime_ok collection input
     = CountRaised
   ↔ strptime_ok (strip input) = true
     ∧ Exists (unresolvable toDate) collection)
  ∧ (handle_top_sources_2015 toDate year collection = SourcesRaised
     ↔ Exists (unresolvable toDate) collection)
  ∧ (handle_recent_by_source toDate dateToString collection input
       = RecentRaised
     ↔ strip input ≠ EmptyString
       ∧ Exists (λ a, lower (source a) = lower (strip input)
                      ∧ unresolvable toDate a) collection)
  ∧ (∀ a, unresolvable toDate a
          ↔ ∃ s, published a = PString s ∧ toDate s = None).
Proof.
  intros _. split; [|split; [|split]].
  - apply article_count_raises.
  - apply top_sources_raises.
  - apply recent_raises.
  - intros a. apply published_date_None.
Qed.

End Recent.

(** *** When a query finds nothing *)

Lemma code_lower_ascii c :
  (65 ≤ code c)%N → (code c ≤ 90)%N →
  code (lower_ascii c) = (code c + 32)%N.
Proof.
  intros H1 H2. unfold lower_ascii.
  rewrite (proj2 (N.leb_le 65 (code c)) H1).
  rewrite (proj2 (N.leb_le (code c) 90) H2). simpl.
  unfold code. apply N_ascii_embedding. fold (code c). lia.
Qed.

Lemma lower_ascii_other c :
  ¬ ((65 ≤ code c)%N ∧ (code c ≤ 90)%N) → lower_ascii c = c.
Proof.
  intros H. unfold lower_ascii.
  destruct (65 <=? code c)%N eqn:E1; [|done].
  destruct (code c <=? 90)%N eqn:E2; [|done].
  apply N.leb_le in E1, E2. tauto.
Qed.

Lemma is_word_char_spec c :
  is_word_char c = true ↔
  (97 ≤ code c ≤ 122 ∨ 65 ≤ code c ≤ 90 ∨ 48 ≤ code c ≤ 57
   ∨ code c = 95 ∨ code c = 45)%N.
Proof.
  unfold is_word_char.
  rewrite !orb_true_iff, !andb_true_iff, !N.leb_le, !N.eqb_eq. tauto.
Qed.

Lemma is_lower_word_char_spec c :
  is_lower_word_char c = true ↔
  (97 ≤ code c ≤ 122 ∨ 48 ≤ code c ≤ 57 ∨ code c = 95 ∨ code c = 45)%N.
Proof.
  unfold is_lower_word_char.
  rewrite !orb_true_iff, !andb_true_iff, !N.leb_le, !N.eqb_eq. tauto.
Qed.

(** Lowercasing keeps a character inside or outside the class, and a class
    character becomes a lowercase letter, a digit, [_] or [-]. *)
Lemma is_word_char_lower c : is_word_char (lower_ascii c) = is_word_char c.
Proof.
  apply Bool.eq_iff_eq_true. rewrite !is_word_char_spec.
  destruct (decide ((65 ≤ code c)%N ∧ (code c ≤ 90)%N)) as [[H1 H2]|H].
  - rewrite code_lower_ascii by done. lia.
  - by rewrite lower_ascii_other.
Qed.

Lemma is_lower_word_char_lower c :
  is_lower_word_char (lower_ascii c) = is_word_char c.
Proof.
  apply Bool.eq_iff_eq_true.
  rewrite is_word_char_spec, is_lower_word_char_spec.
  destruct (decide ((65 ≤ code c)%N ∧ (code c ≤ 90)%N)) as [[H1 H2]|H].
  - rewrite code_lower_ascii by done. lia.
  - rewrite lower_ascii_other by done. lia.
Qed.

Lemma list_of_lower s :
  String.list_ascii_of_string (lower s)
  = lower_ascii <$> String.list_ascii_of_string s.
Proof. induction s as [|c s IH]; simpl; [done | by rewrite IH]. Qed.

Lemma gap_lower s : gap (lower s) ↔ gap s.
Proof.
  unfold gap. rewrite list_of_lower, Forall_fmap.
  apply Forall_proper; [|done]. intros c. simpl.
  by rewrite is_word_char_lower.
Qed.

(** A text has no token exactly when it has no character of the class. *)
Lemma regexFindAll_nil text : regexFindAll text = [] ↔ gap text.
Proof.
  split.
  - intros H0. pose proof (regexFindAll_tokens_of text) as Ht.
    rewrite H0 in Ht. by inv Ht.
  - intros Hg. rewrite <- (append_empty_r text).
    unfold regexFindAll. by rewrite scan_gap.
Qed.

Lemma Forall_filter_impl {A} (P Q : A → Prop) `{∀ x, Decision (P x)}
    (l : list A) :
  Forall Q (filter P l) ↔ Forall (λ x, P x → Q x) l.
Proof.
  rewrite !Forall_forall. split.
  - intros H0 x Hx HP. apply H0. by apply list_elem_of_filter.
  - intros H0 x [HP Hx]%list_elem_of_filter. by apply H0.
Qed.

Lemma sort_count_id_nil rows : sort_count_id rows = [] ↔ rows = [].
Proof.
  split; [|by intros ->]. intros H0.
  apply Permutation_nil_r. by rewrite <- H0, sort_count_id_perm.
Qed.

Section Empty.
Variable toDate : string → option Z.
Variable year : Z → Z.
Variable dateToString : Z → string.

Lemma common_words_aggregate_nil collection selector :
  common_words_aggregate collection selector = [] ↔
  Forall (λ a, lower (media_type a) = selector →
               gap (default EmptyString (content a))) collection.
Proof.
  unfold common_words_aggregate. cbv zeta.
  rewrite sort_count_id_nil, group_rows_nil, join_nil.
  rewrite <- list_fmap_compose, Forall_fmap, Forall_filter_impl.
  apply Forall_proper; [|done]. intros a. simpl.
  by rewrite regexFindAll_nil, gap_lower.
Qed.

(** X5.  For ASCII input: Op1 reports "no articles or no content" exactly
    when the selector is valid and no matching article has a character of
    the token class in its content; Op3 reports "no articles for 2015"
    exactly when every [published] resolves and none falls in 2015; Op4
    reports "source not found" exactly when the name is not empty and no
    article has that source up to letter case. *)
Theorem empty_outcomes (collection : list article) (input : string) :
  ascii_text input →
  (handle_common_words collection input = NoWords
   ↔ lower (strip input) ∈ ["news"; "blog"]
     ∧ Forall (λ a, lower (media_type a) = lower (strip input) →
                    gap (default EmptyString (content a))) collection)
  ∧ (handle_top_sources_2015 toDate year collection = NoSources
     ↔ Forall (λ a, ¬ unresolvable toDate a ∧ ¬ in_2015 toDate year a)
              collection)
  ∧ (handle_recent_by_source toDate dateToString collection input
       = SourceNotFound
     ↔ strip input ≠ EmptyString
       ∧ Forall (λ a, lower (source a) ≠ lower (strip input)) collection).
Proof.
  intros _. split; [|split].
  - rewrite <- common_words_aggregate_nil.
    destruct (decide (lower (strip input) ∈ ["news"; "blog"])) as [Hin|Hin].
    + rewrite handle_common_words_eq by done.
      destruct (common_words_aggregate _ _); [done|].
      split; [done | by intros [_ ?]].
    + unfold handle_common_words. cbv zeta. rewrite decide_False by done.
      split; [done | by intros [? _]].
  - rewrite handle_top_sources_2015_eq. unfold top_sources_aggregate.
    destruct (mapM _ collection) as [with_year|] eqn:E; simpl.
    + rewrite (top_sources_keys _ _ _ _ E).
      assert (Forall (λ a, ¬ unresolvable toDate a) collection) as Hres.
      { apply Forall_forall. intros a Ha Hu.
        assert (mapM (year_of toDate year) collection = None) as Hn;
          [|congruence].
        apply mapM_None, Exists_exists. exists a. split; [done|].
        unfold year_of. by rewrite Hu. }
      rewrite Forall_and.
      destruct (sort_count_id _) as [|r rows] eqn:Es.
      * split; [|done]. intros _. split; [done|].
        apply sort_count_id_nil, group_rows_nil, fmap_nil_inv in Es.
        by apply (proj1 (filter_nil_iff _ _)).
      * split; [done|]. intros [_ Hno]. exfalso.
        apply (proj2 (filter_nil_iff _ _)) in Hno. rewrite Hno in Es. done.
    + split; [done|]. intros Hall. exfalso.
      apply mapM_None, Exists_exists in E as (a & Ha & Hy).
      rewrite Forall_forall in Hall. destruct (Hall a Ha) as [Hu _].
      apply Hu. unfold year_of in Hy. unfold unresolvable.
      by destruct (published_date toDate (published a)).
  - unfold handle_recent_by_source, recent_by_source_aggregate. cbv zeta.
    case_decide as Hempty; [split; [done | by intros [? _]]|].
    rewrite <- filter_nil_iff.
    destruct (filter _ collection) as [|a matched] eqn:Ef.
    + done.
    + split.
      2:{ intros [_ Hf]. exfalso.
          apply (proj1 (filter_nil_iff _ _)) in Hf.
          rewrite Forall_forall in Hf.
          assert (a ∈ filter (λ a, lower (source a) = lower (strip input))
                         collection) as Ha by (rewrite Ef; left).
          apply list_elem_of_filter in Ha as [Hs Ha]. by apply (Hf a). }
      intros H0. exfalso.
      destruct (mapM _ (a :: matched)) as [projected|] eqn:E;
        simpl in H0; [|done].
      apply length_mapM in E.
      pose proof (Permutation_length
                    (merge_sort_Permutation publishedDate_desc projected))
        as Hlen.
      destruct (merge_sort _ projected); [simpl in *; lia | done].
Qed.

End Empty.

(** *** The words that Op1 reports *)

Lemma list_of_string_app (a b : string) :
  String.list_ascii_of_string (a +:+ b)
  = String.list_ascii_of_string a ++ String.list_ascii_of_string b.
Proof.
  induction a as [|x a IH]; [done|]. rewrite append_cons. simpl.
  by rewrite IH.
Qed.

(** Every token is a non-empty run of class characters taken from the
    text. *)
Lemma tokens_of_tokens text toks :
  tokens_of text toks →
  Forall (λ w, token w ∧
               String.list_ascii_of_string w
                 ⊆ String.list_ascii_of_string text) toks.
Proof.
  induction 1 as [g Hg | g w rest toks Hg Hw Hr _ IH]; [constructor|].
  rewrite !list_of_string_app. constructor.
  - split; [done|]. set_solver.
  - eapply Forall_impl; [exact IH|]. intros w' [? ?]. split; [done|].
    set_solver.
Qed.

Lemma occurrences_pos w ws : 0 < occurrences w ws → w ∈ ws.
Proof.
  unfold occurrences. intros Hpos.
  destruct (filter (λ x, x = w) ws) as [|x l] eqn:E; [simpl in Hpos; lia|].
  assert (x ∈ filter (λ x, x = w) ws) as Hx by (rewrite E; left).
  by apply list_elem_of_filter in Hx as [-> ?].
Qed.

(** The counts of the groups add up to the number of grouped keys. *)
Lemma group_count_total keys :
  sum_list ((map_to_list (group_count keys)).*2) = length keys.
Proof.
  induction keys as [|k keys IH]; [done|].
  unfold group_count in *. simpl.
  set (m := foldr _ ∅ keys) in *.
  destruct (m !! k) as [v|] eqn:E; simpl.
  - rewrite <- insert_delete_eq.
    rewrite map_to_list_insert by apply lookup_delete_eq.
    rewrite <- (map_to_list_delete m k v E) in IH.
    rewrite !fmap_cons in *. simpl in *. lia.
  - rewrite map_to_list_insert by done. rewrite fmap_cons. simpl. lia.
Qed.

Lemma sorted_groups_total keys :
  sum_list (count <$> sort_count_id (group_rows (group_count keys)))
  = length keys.
Proof.
  rewrite sort_count_id_perm. unfold group_rows.
  rewrite <- list_fmap_compose. apply group_count_total.
Qed.

(** X6.  Every word that Op1's pipeline returns is a non-empty string of
    lowercase letters, digits, underscores and hyphens with a positive
    count, and the counts add up to the number of tokens of the matching
    articles. *)
Theorem common_words_are_lowercase_tokens (collection : list article)
    (selector : string) :
  let all_results := common_words_aggregate collection selector in
  let tokens :=
    mjoin ((λ a, regexFindAll (lower (default EmptyString (content a))))
             <$> filter (λ a, lower (media_type a) = selector) collection) in
  Forall (λ r, _id r ≠ EmptyString
               ∧ Forall (λ c, is_lower_word_char c = true)
                        (String.list_ascii_of_string (_id r))
               ∧ 0 < count r) all_results
  ∧ sum_list (count <$> all_results) = length tokens.
Proof.
  cbv zeta. split.
  - apply Forall_forall. intros r Hr.
    apply common_words_aggregate_rows in Hr as [Hpos Hocc].
    pose proof Hpos as Hin. rewrite Hocc in Hin.
    apply occurrences_pos in Hin.
    apply list_elem_of_join in Hin as (toks & Hw & Htoks).
    apply list_elem_of_fmap in Htoks as (a & -> & _).
    pose proof (tokens_of_tokens _ _ (regexFindAll_tokens_of
      (lower (default EmptyString (content a))))) as Hall.
    rewrite Forall_forall in Hall.
    destruct (Hall _ Hw) as [[Hne Hcls] Hsub].
    split; [done|]. split; [|lia].
    apply Forall_forall. intros c Hc.
    rewrite Forall_forall in Hcls. specialize (Hcls c Hc).
    apply Hsub in Hc. rewrite list_of_lower in Hc.
    apply list_elem_of_fmap in Hc as (c' & -> & _).
    rewrite is_lower_word_char_lower.
    by rewrite is_word_char_lower in Hcls.
  - unfold common_words_aggregate. cbv zeta.
    rewrite sorted_groups_total. by rewrite <- list_fmap_compose.
Qed.

(** *** The results as functions of the contents of the store *)

Section StoreOrder.
Variable toDate : string → option Z.
Variable year : Z → Z.
Variable dateToString : Z → string.
Variable strptime_ok : string → bool.

Lemma article_count_aggregate_perm c1 c2 date_str :
  c1 ≡ₚ c2 →
  article_count_aggregate toDate dateToString c1 date_str
  = article_count_aggregate toDate dateToString c2 date_str.
Proof.
  intros H. unfold article_count_aggregate.
  destruct (mapM_perm (project_day toDate dateToString) c1 c2 H)
    as [k1 k2 Hk|]; [simpl|done].
  do 2 f_equal. apply group_count_perm. by rewrite Hk.
Qed.

(** X7.  Op1, Op2 and Op3 give the same result for two collections that
    hold the same documents in a different order. *)
Theorem results_independent_of_store_order (c1 c2 : list article)
    (input : string) :
  c1 ≡ₚ c2 →
  handle_common_words c1 input = handle_common_words c2 input
  ∧ handle_article_count toDate dateToString strptime_ok c1 input
    = handle_article_count toDate dateToString strptime_ok c2 input
  ∧ handle_top_sources_2015 toDate year c1
    = handle_top_sources_2015 toDate year c2.
Proof.
  intros H. split; [|split].
  - unfold handle_common_words.
    by rewrite (common_words_aggregate_perm c1 c2 _ H).
  - unfold handle_article_count.
    by rewrite (article_count_aggregate_perm c1 c2 _ H).
  - unfold handle_top_sources_2015.
    by rewrite (top_sources_aggregate_perm toDate year c1 c2 H).
Qed.

End StoreOrder.

(** *** Option 4 without ties *)

Lemma NoDup_fmap_eq {A B} (f : A → B) (l : list A) x y :
  NoDup (f <$> l) → x ∈ l → y ∈ l → f x = f y → x = y.
Proof.
  induction l as [|a l IH]; intros Hnd Hx Hy Hf; [by inv Hx|].
  rewrite fmap_cons in Hnd. apply NoDup_cons in Hnd as [Ha Hnd].
  apply elem_of_cons in Hx as [->|Hx], Hy as [->|Hy].
  - done.
  - exfalso. apply Ha. rewrite Hf. by apply list_elem_of_fmap_2.
  - exfalso. apply Ha. rewrite <- Hf. by apply list_elem_of_fmap_2.
  - by apply IH.
Qed.

(** Two sorted rearrangements of one list are equal when no two of its
    elements are related both ways. *)
Lemma StronglySorted_unique_on {A} (R : relation A) :
  ∀ l1 l2 : list A,
    (∀ x y, x ∈ l1 → y ∈ l1 → R x y → R y x → x = y) →
    StronglySorted R l1 → StronglySorted R l2 → l1 ≡ₚ l2 → l1 = l2.
Proof.
  induction l1 as [|x l1 IH]; intros l2 Hanti Hs1 Hs2 Hp.
  - by apply Permutation_nil_l in Hp.
  - destruct l2 as [|y l2]; [by apply Permutation_nil_r in Hp|].
    apply StronglySorted_inv in Hs1 as [Hs1 Hx].
    apply StronglySorted_inv in Hs2 as [Hs2 Hy].
    assert (x = y) as <-.
    { assert (x ∈ y :: l2) as Hin by (rewrite <- Hp; by left).
      assert (y ∈ x :: l1) as Hin' by (rewrite Hp; by left).
      apply elem_of_cons in Hin as [?|Hin]; [done|].
      apply elem_of_cons in Hin' as [?|Hin']; [done|].
      rewrite Forall_forall in Hx, Hy.
      apply Hanti; [by left | by right | by apply Hx | by apply Hy]. }
    f_equal. apply IH; [|done|done|by apply (inj (x ::.))].
    intros a b Ha Hb. apply Hanti; by right.
Qed.

Section RecentOrder.
Variable toDate : string → option Z.
Variable dateToString : Z → string.

(** X14.  When no two of the articles that Op4's pipeline returns share a
    published value (so at most one has none), the pipeline returns the same
    list, and Op4 the same outcome, for every collection that holds the same
    documents in another order. *)
Theorem recent_independent_of_store_order (c1 c2 : list article)
    (input : string) (articles : list recent_article) :
  c1 ≡ₚ c2 →
  recent_by_source_aggregate toDate dateToString c1 (lower (strip input))
    = Some articles →
  NoDup (publishedDate <$> articles) →
  recent_by_source_aggregate toDate dateToString c2 (lower (strip input))
    = Some articles
  ∧ handle_recent_by_source toDate dateToString c2 input
    = handle_recent_by_source toDate dateToString c1 input.
Proof.
  intros Hp Hagg Hnd.
  assert (recent_by_source_aggregate toDate dateToString c2
            (lower (strip input)) = Some articles) as Hagg2.
  { revert Hagg. unfold recent_by_source_aggregate. cbv zeta.
    pose proof (mapM_perm (project_dated toDate dateToString)
                  (filter (λ a, lower (source a) = lower (strip input)) c1)
                  (filter (λ a, lower (source a) = lower (strip input)) c2))
      as Hm.
    destruct Hm as [p1 p2 Hpp|]; [by rewrite Hp | |done].
    simpl. intros [= <-]. f_equal. f_equal.
    rewrite <- list_fmap_compose in Hnd. symmetry.
    apply (StronglySorted_unique_on publishedDate_desc).
    - intros x y Hx Hy Hxy Hyx.
      apply (NoDup_fmap_eq _ _ _ _ Hnd Hx Hy). simpl.
      by apply date_le_antisym.
    - apply (StronglySorted_merge_sort _).
    - apply (StronglySorted_merge_sort _).
    - by rewrite !merge_sort_Permutation. }
  split; [done|].
  unfold handle_recent_by_source. cbv zeta. by rewrite Hagg, Hagg2.
Qed.

End RecentOrder.

(** *** The properties on the examples *)

Import Examples.

Lemma grouped_result_is_threshold_witness :
  handle_common_words sample "news"
    = TopWords
        (filter (λ r, count (GroupRow "epsilon" 1) ≤ count r)
           [GroupRow "alpha" 6; GroupRow "beta" 4; GroupRow "gamma" 3;
            GroupRow "delta" 2; GroupRow "epsilon" 1; GroupRow "zeta" 1])
  ∧ handle_top_sources_2015 Calendar.toDate Calendar.year sample
    = TopSources
        (filter (λ r, count (GroupRow "E" 1) ≤ count r)
           [GroupRow "A" 3; GroupRow "B" 2; GroupRow "C" 2;
            GroupRow "D" 1; GroupRow "E" 1; GroupRow "F" 1]).
Proof.
  destruct (grouped_result_is_threshold Calendar.toDate Calendar.year
              sample "news") as [H1 H3].
  split.
  - destruct (H1 [GroupRow "alpha" 6; GroupRow "beta" 4; GroupRow "gamma" 3;
                  GroupRow "delta" 2; GroupRow "epsilon" 1;
                  GroupRow "zeta" 1] (GroupRow "epsilon" 1)) as [-> _];
      [by_decision | by_evaluation | reflexivity | reflexivity].
  - destruct (H3 [GroupRow "A" 3; GroupRow "B" 2; GroupRow "C" 2;
                  GroupRow "D" 1; GroupRow "E" 1; GroupRow "F" 1]
                 (GroupRow "E" 1)) as [-> _];
      [by_evaluation | reflexivity | reflexivity].
Defined.

Lemma recent_aggregate_sorted_matches_witness :
  StronglySorted recent_first
    [RecentArticle "first" (Some sept1) (Some "2015-09-01");
     RecentArticle "second" (Some sept1) (Some "2015-09-01")]
  ∧ (∃ matches,
       mapM (recent_of Calendar.toDate Calendar.dateToString)
            (filter (λ a, lower (source a) = "bbc") same_instant_ab)
         = Some matches
       ∧ [RecentArticle "first" (Some sept1) (Some "2015-09-01");
          RecentArticle "second" (Some sept1) (Some "2015-09-01")]
         ≡ₚ matches)
  ∧ Forall (λ r, date r = Calendar.dateToString <$> publishedDate r)
      [RecentArticle "first" (Some sept1) (Some "2015-09-01");
       RecentArticle "second" (Some sept1) (Some "2015-09-01")].
Proof.
  apply (recent_aggregate_sorted_matches Calendar.toDate
           Calendar.dateToString same_instant_ab "bbc").
  by_evaluation.
Defined.

Lemma recent_result_is_threshold_witness :
  handle_recent_by_source Calendar.toDate Calendar.dateToString
    recent_dated "bbc"
  = RecentArticles
      (filter (λ a, date_le (Some 2000%Z) (publishedDate a))
         [RecentArticle "a" (Some 6000%Z) (Some "1970-01-01");
          RecentArticle "b" (Some 5000%Z) (Some "1970-01-01");
          RecentArticle "c" (Some 4000%Z) (Some "1970-01-01");
          RecentArticle "d" (Some 3000%Z) (Some "1970-01-01");
          RecentArticle "e" (Some 2000%Z) (Some "1970-01-01");
          RecentArticle "f" (Some 2000%Z) (Some "1970-01-01")]).
Proof.
  apply (recent_result_is_threshold Calendar.toDate Calendar.dateToString
           recent_dated "bbc" _
           (RecentArticle "e" (Some 2000%Z) (Some "1970-01-01")));
    [by_decision | by_evaluation | reflexivity | reflexivity | by_decision].
Defined.

Lemma results_independent_of_store_order_witness :
  handle_common_words same_instant_ab "news"
    = handle_common_words same_instant_ba "news"
  ∧ handle_article_count Calendar.toDate Calendar.dateToString
      Calendar.strptime_ok same_instant_ab "news"
    = handle_article_count Calendar.toDate Calendar.dateToString
        Calendar.strptime_ok same_instant_ba "news"
  ∧ handle_top_sources_2015 Calendar.toDate Calendar.year same_instant_ab
    = handle_top_sources_2015 Calendar.toDate Calendar.year same_instant_ba.
Proof.
  apply (results_independent_of_store_order Calendar.toDate Calendar.year
           Calendar.dateToString Calendar.strptime_ok).
  apply perm_swap.
Defined.
Lemma aggregate_raises_witness :
  handle_recent_by_source Calendar.toDate Calendar.dateToString
    [bbc "a" (PDate sept1); bbc "b" (PString "yesterday")] " BBC "
  = RecentRaised.
Proof.
  destruct (aggregate_raises Calendar.toDate Calendar.year
              Calendar.dateToString Calendar.strptime_ok
              [bbc "a" (PDate sept1); bbc "b" (PString "yesterday")]
              " BBC ") as (_ & _ & H & _).
  - by_decision.
  - apply H. split; [by_decision|].
    apply Exists_cons_tl, Exists_cons_hd. split; by_evaluation.
Defined.

Lemma empty_outcomes_witness :
  handle_recent_by_source Calendar.toDate Calendar.dateToString
    sample "Reuters"
  = SourceNotFound.
Proof.
  destruct (empty_outcomes Calendar.toDate Calendar.year
              Calendar.dateToString sample "Reuters") as (_ & _ & H).
  - by_decision.
  - apply H. split; by_decision.
Defined.

Lemma recent_independent_of_store_order_witness :
  recent_by_source_aggregate Calendar.toDate Calendar.dateToString
    [Article "2" (Some "cats") "Lower" "news" "bbc" (PDate (sept1 + 1000));
     Article "1" (Some "cats") "Upper" "NEWS" "BBC" (PDate sept1)]
    (lower (strip "BBC"))
  = Some [RecentArticle "Lower" (Some (sept1 + 1000)%Z) (Some "2015-09-01");
          RecentArticle "Upper" (Some sept1) (Some "2015-09-01")]
  ∧ handle_recent_by_source Calendar.toDate Calendar.dateToString
      [Article "2" (Some "cats") "Lower" "news" "bbc" (PDate (sept1 + 1000));
       Article "1" (Some "cats") "Upper" "NEWS" "BBC" (PDate sept1)] "BBC"
    = handle_recent_by_source Calendar.toDate Calendar.dateToString
        case_pair "BBC".
Proof.
  apply (recent_independent_of_store_order Calendar.toDate
           Calendar.dateToString case_pair).
  - apply perm_swap.
  - by_evaluation.
  - by_decision.
Defined.

End QueryExtras.

(** * The menu loop *)

Module SessionFacts.
Import Text Store Query Spec SpecMore Session QueryFacts QueryExtras.

Section LoopFacts.
Variable toDate : string → option Z.
Variable year : Z → Z.
Variable dateToString : Z → string.
Variable strptime_ok : string → bool.
Variable collection : list article.

Local Abbreviation menu_loop :=
  (Session.menu_loop toDate year dateToString strptime_ok collection).

(** Induction over the input that follows the loop: an iteration continues
    with the input after its one or two lines. *)
Lemma input_ind (P : list string → Prop) :
  (∀ inputs, (∀ rest, length rest < length inputs → P rest) → P inputs) →
  ∀ inputs, P inputs.
Proof.
  intros Hstep inputs.
  assert (∀ n l, length l < n → P l) as Hall.
  { induction n as [|n IH]; intros l Hl; [lia|].
    apply Hstep. intros rest Hrest. apply IH. lia. }
  apply (Hall (S (length inputs))). lia.
Qed.

(** X8.  If every stored [published] value resolves, no sequence of inputs
    makes the loop end by an exception of a query: the session ends by choice
    5 or at the end of the input.  The session ends by choice 5 exactly when
    the goodbye line is the last thing printed; and once the session has
    ended by choice 5 or by an exception, no further input is read. *)
Theorem session_ends (inputs extra : list string) :
  (Forall (λ a, ¬ unresolvable toDate a) collection →
   (menu_loop inputs).2 ≠ Crashed)
  ∧ ((menu_loop inputs).2 = Exited
     ↔ last (menu_loop inputs).1 = Some Goodbye)
  ∧ ((menu_loop inputs).2 ≠ InputEnded →
     menu_loop (inputs ++ extra) = menu_loop inputs).
Proof.
  split; [|split].
  - intros Hres.
    assert (¬ Exists (unresolvable toDate) collection) as Hno.
    { intros (a & Ha & Hu)%Exists_exists.
      rewrite Forall_forall in Hres. by apply (Hres a). }
    induction inputs as [inputs IH] using input_ind.
    destruct inputs as [|line rest]; [done|]. simpl.
    repeat case_decide.
    + destruct rest as [|answer rest']; [done|]. simpl.
      apply IH. simpl. lia.
    + destruct rest as [|answer rest']; [done|].
      destruct (handle_article_count _ _ _ _ _) eqn:E; simpl;
        try (apply IH; simpl; lia).
      by apply article_count_raises in E as [_ E].
    + destruct (handle_top_sources_2015 _ _ _) eqn:E; simpl;
        try (apply IH; simpl; lia).
      by apply top_sources_raises in E.
    + destruct rest as [|answer rest']; [done|].
      destruct (handle_recent_by_source _ _ _ _) eqn:E; simpl;
        try (apply IH; simpl; lia).
      apply recent_raises in E as [_ E].
      exfalso. apply Hno. eapply Exists_impl; [exact E|]. by intros a [_ ?].
    + done.
    + apply IH. simpl. lia.
  - induction inputs as [inputs IH] using input_ind.
    destruct inputs as [|line rest]; [done|]. simpl.
    assert (∀ (s : screen) r,
              s ≠ Goodbye →
              (r.2 = Exited ↔ last r.1 = Some Goodbye) →
              r.2 = Exited
              ↔ last (ShowMenu :: s :: r.1) = Some Goodbye) as Hstep.
    { intros s [out e] Hs Hr. simpl in *. rewrite Hr.
      destruct out as [|x out]; [|done]. simpl.
      split; [done|]. intros [= ->]. done. }
    repeat case_decide.
    + destruct rest as [|answer rest']; [done|]. simpl.
      apply Hstep; [done|]. apply IH. simpl. lia.
    + destruct rest as [|answer rest']; [done|].
      destruct (handle_article_count _ _ _ _ _) eqn:E; simpl; try done;
        (apply Hstep; [done|]; apply IH; simpl; lia).
    + destruct (handle_top_sources_2015 _ _ _) eqn:E; simpl; try done;
        (apply Hstep; [done|]; apply IH; simpl; lia).
    + destruct rest as [|answer rest']; [done|].
      destruct (handle_recent_by_source _ _ _ _) eqn:E; simpl; try done;
        (apply Hstep; [done|]; apply IH; simpl; lia).
    + done.
    + cbn [fst snd]. apply Hstep; [done|]. apply IH. simpl. lia.
  - induction inputs as [inputs IH] using input_ind.
    destruct inputs as [|line rest]; [done|].
    rewrite <- app_comm_cons. simpl.
    repeat case_decide.
    + destruct rest as [|answer rest']; [done|].
      rewrite <- app_comm_cons. simpl. intros Hend.
      by rewrite IH by (simpl; lia || done).
    + destruct rest as [|answer rest']; [done|].
      rewrite <- app_comm_cons.
      destruct (handle_article_count _ _ _ _ _) eqn:E; simpl; try done;
        intros Hend; by rewrite IH by (simpl; lia || done).
    + destruct (handle_top_sources_2015 _ _ _) eqn:E; simpl; try done;
        intros Hend; by rewrite IH by (simpl; lia || done).
    + destruct rest as [|answer rest']; [done|].
      rewrite <- app_comm_cons.
      destruct (handle_recent_by_source _ _ _ _) eqn:E; simpl; try done;
        intros Hend; by rewrite IH by (simpl; lia || done).
    + done.
    + simpl. intros Hend. by rewrite IH by (simpl; lia || done).
Qed.

End LoopFacts.

Import Examples.

Lemma session_ends_witness :
  (Session.menu_loop Calendar.toDate Calendar.year Calendar.dateToString
     Calendar.strptime_ok sample ["3"; "1"; "news"; "9"; "5"]).2 ≠ Crashed
  ∧ Session.menu_loop Calendar.toDate Calendar.year Calendar.dateToString
      Calendar.strptime_ok sample (["3"; "1"; "news"; "9"; "5"] ++ ["2"])
    = Session.menu_loop Calendar.toDate Calendar.year Calendar.dateToString
        Calendar.strptime_ok sample ["3"; "1"; "news"; "9"; "5"].
Proof.
  destruct (session_ends Calendar.toDate Calendar.year Calendar.dateToString
              Calendar.strptime_ok sample ["3"; "1"; "news"; "9"; "5"]
              ["2"]) as (H1 & _ & H3).
  split.
  - apply H1. unfold sample.
    repeat (constructor; [intros H; vm_compute in H; discriminate H|]).
    constructor.
  - apply H3. intros H. vm_compute in H. discriminate H.
Defined.
End SessionFacts.

(** * Further properties of the loader *)

Module LoaderExtras.
Import Text Loader LoaderSpec Spec SpecMore Reload TextFacts LoaderFacts.

Lemma reported_numbers_app out1 out2 :
  reported_numbers (out1 ++ out2)
  = reported_numbers out1 ++ reported_numbers out2.
Proof. apply omap_app. Qed.

Section AnyStore.
Variable collection : Type.
Variable insert_many : collection → list json → option collection.

Local Abbreviation state := (Loader.state collection).
Local Abbreviation process_line :=
  (Loader.process_line collection insert_many).
Local Abbreviation read_lines := (Loader.read_lines collection insert_many).
Local Abbreviation finish := (Loader.finish collection insert_many).
Local Abbreviation main := (Loader.main collection insert_many).
Local Abbreviation warn := (Loader.warn collection).
Local Abbreviation batch := (Loader.batch collection).
Local Abbreviation calls := (Loader.calls collection).
Local Abbreviation output := (Loader.output collection).
Local Abbreviation articles := (Loader.articles collection).
Local Abbreviation total_documents := (Loader.total_documents collection).
Local Abbreviation batch_count := (Loader.batch_count collection).

#[local] Opaque BATCH_SIZE.

(** *** The counters, whatever the store does *)

Lemma ledger_warn (st : state) docs e :
  reported_size e = None → reported_number e = None →
  ledger st docs → ledger (warn st e) docs.
Proof.
  intros Hs Hn (H1 & H2 & H3 & H4). repeat split; try done; simpl.
  - rewrite reported_sizes_app, H3. unfold reported_sizes at 2. simpl.
    rewrite Hs. by rewrite app_nil_r.
  - rewrite reported_numbers_app, H4. unfold reported_numbers at 1. simpl.
    rewrite Hn. by rewrite app_nil_r.
Qed.

Lemma process_line_ledger (st : state) n ln docs :
  ledger st docs →
  ledger (process_line st n ln) (docs ++ accepted_line ln).
Proof.
  intros Hl. destruct ln as [| |document].
  - by rewrite app_nil_r.
  - rewrite app_nil_r. by apply ledger_warn.
  - unfold Loader.process_line, accepted_line.
    destruct (all_in required_fields document) as [[|]|];
      [|rewrite app_nil_r; by apply ledger_warn..].
    destruct Hl as (H1 & H2 & H3 & H4).
    assert (Loader.batch _ st ++ [document]
            = drop (Loader.total_documents _ st) (docs ++ [document]))
      as Hb by (by rewrite drop_app_le, H2 by done).
    assert (length (Loader.batch _ st)
            = length docs - Loader.total_documents _ st) as Hlen
      by (by rewrite H2, length_drop).
    assert (length (Loader.batch _ st ++ [document])
            = length docs - Loader.total_documents _ st + 1) as Hlen'
      by (rewrite length_app; simpl; lia).
    assert (length (docs ++ [document]) = length docs + 1) as Hdocs
      by (rewrite length_app; simpl; lia).
    case_decide as Hfull.
    + destruct (insert_many _ _) as [articles'|].
      * split; [simpl; lia|]. split; [|split].
        -- simpl. rewrite drop_ge; [done | lia].
        -- simpl.
           rewrite reported_sizes_app, sum_list_with_app, <- H3. simpl. lia.
        -- cbn [Loader.output Loader.batch_count].
           rewrite reported_numbers_app, H4, seq_S. done.
      * split; [simpl; lia|]. split; [|split]; simpl.
        -- done.
        -- rewrite reported_sizes_app, sum_list_with_app, <- H3. simpl. lia.
        -- rewrite reported_numbers_app, H4. simpl. by rewrite app_nil_r.
    + split; [simpl; lia|]. by split.
Qed.

Lemma read_lines_ledger lines : ∀ (st : state) n docs,
  ledger st docs → ledger (read_lines st n lines) (docs ++ accepted lines).
Proof.
  induction lines as [|ln lines IH]; intros st n docs Hl.
  - by rewrite app_nil_r.
  - rewrite accepted_cons, app_assoc. simpl. apply IH.
    by apply process_line_ledger.
Qed.

(** X9.  Whatever the store does, the reported total is the sum of the
    reported batch sizes and the reported batch numbers are 1, 2, 3, ...;
    the run exits with status 0 exactly when the reported total is the
    number of validated records, and then the total is the last line
    printed; with status 1 the records from the reported total on are the
    batch of the failed last call. *)
Theorem run_ledger (fresh : collection) (lines : list line) :
  let run := main fresh lines in
  let docs := accepted lines in
  total_documents run.1 = sum_list (reported_sizes (output run.1))
  ∧ reported_numbers (output run.1) = seq 1 (batch_count run.1)
  ∧ (run.2 = Exit0 ↔ total_documents run.1 = length docs)
  ∧ (run.2 = Exit0 ↔ last (output run.1) = Some (Completed (length docs)))
  ∧ (run.2 = Exit1 →
     batch run.1 ≠ []
     ∧ docs = take (total_documents run.1) docs ++ batch run.1
     ∧ last (calls run.1) = Some (batch run.1)
     ∧ last (output run.1) = Some ErrorDuringProcessing).
Proof.
  cbv zeta. unfold Loader.main.
  set (st := Loader.read_lines _ _ _ _ _).
  assert (ledger st (accepted lines)) as (H1 & H2 & H3 & H4).
  { apply (read_lines_ledger lines _ 1 []). repeat split; simpl; done. }
  assert (length (Loader.batch _ st)
          = length (accepted lines) - Loader.total_documents _ st) as Hlen
    by (by rewrite H2, length_drop).
  unfold Loader.finish.
  destruct (Loader.batch _ st) as [|d b] eqn:E.
  - simpl in *.
    assert (Loader.total_documents _ st = length (accepted lines)) as Ht
      by lia.
    split; [|split; [|split; [|split]]].
    + rewrite reported_sizes_app, sum_list_with_app, <- H3. simpl. lia.
    + rewrite reported_numbers_app, H4. simpl. by rewrite app_nil_r.
    + done.
    + split; [|done]. intros _. rewrite last_snoc. by rewrite Ht.
    + done.
  - simpl in Hlen.
    destruct (insert_many _ (d :: b)) as [articles'|];
      cbn [fst snd Loader.total_documents Loader.output Loader.batch_count
           Loader.batch Loader.calls].
    + assert (Loader.total_documents _ st + length (d :: b)
              = length (accepted lines)) as Ht by (simpl; lia).
      split; [|split; [|split; [|split]]].
      * rewrite reported_sizes_app, sum_list_with_app, <- H3. simpl. lia.
      * rewrite reported_numbers_app, H4, seq_S. done.
      * done.
      * split; [|done]. intros _. rewrite last_app. simpl.
        do 2 f_equal. simpl in Ht. lia.
      * done.
    + split; [|split; [|split; [|split]]].
      * rewrite reported_sizes_app, sum_list_with_app, <- H3. simpl. lia.
      * rewrite reported_numbers_app, H4. simpl. by rewrite app_nil_r.
      * split; [done|]. intros Ht. lia.
      * split; [done|]. rewrite last_snoc. done.
      * intros _. split; [done|]. split; [by rewrite H2, take_drop|].
        split; by rewrite last_snoc.
Qed.


(** *** Warnings name the line they are about *)

#[local] Set Warnings "-clear-no-such-hyp".

Lemma process_line_output (st : state) n ln :
  ∃ new,
    output (process_line st n ln) = output st ++ new
    ∧ (∀ m, WarnInvalidJson m ∈ new ↔ m = n ∧ ln = Malformed)
    ∧ (∀ m, WarnMissingFields m ∈ new ↔
            m = n ∧ ∃ d, ln = Parsed d
                         ∧ all_in required_fields d = Some false).
Proof.
  destruct ln as [| |document].
  - exists []. split; [by rewrite app_nil_r|].
    split; intros m; (split; [by intros ?%elem_of_nil | naive_solver]).
  - exists [WarnInvalidJson n]. split; [done|]. split; intros m.
    + rewrite list_elem_of_singleton. naive_solver.
    + rewrite list_elem_of_singleton. naive_solver.
  - unfold Loader.process_line.
    destruct (all_in required_fields document) as [[|]|] eqn:E.
    + case_decide; [destruct (insert_many _ _)|]; simpl.
      * eexists. split; [done|]. split; intros m;
          rewrite list_elem_of_singleton; naive_solver.
      * eexists. split; [done|]. split; intros m;
          rewrite list_elem_of_singleton; naive_solver.
      * exists []. split; [by rewrite app_nil_r|].
        split; intros m; (split; [by intros ?%elem_of_nil | naive_solver]).
    + exists [WarnMissingFields n]. split; [done|]. split; intros m;
        rewrite list_elem_of_singleton; naive_solver.
    + exists [WarnLineError n]. split; [done|]. split; intros m;
        rewrite list_elem_of_singleton; naive_solver.
Qed.

Lemma read_lines_output lines : ∀ (st : state) n,
  ∃ new,
    output (read_lines st n lines) = output st ++ new
    ∧ (∀ m, WarnInvalidJson m ∈ new ↔
            ∃ i, m = n + i ∧ lines !! i = Some Malformed)
    ∧ (∀ m, WarnMissingFields m ∈ new ↔
            ∃ i d, m = n + i ∧ lines !! i = Some (Parsed d)
                   ∧ all_in required_fields d = Some false).
Proof.
  induction lines as [|ln lines IH]; intros st n.
  - exists []. split; [by rewrite app_nil_r|].
    split; intros m; (split; [by intros ?%elem_of_nil | naive_solver]).
  - simpl.
    destruct (process_line_output st n ln) as (new1 & Ho1 & Hj1 & Hm1).
    destruct (IH (process_line st n ln) (S n)) as (new2 & Ho2 & Hj2 & Hm2).
    exists (new1 ++ new2). split; [by rewrite Ho2, Ho1, app_assoc|].
    split; intros m; rewrite elem_of_app.
    + rewrite Hj1, Hj2. split.
      * intros [[-> ->]|(i & -> & Hi)].
        -- exists 0. split; [lia | done].
        -- exists (S i). split; [lia | done].
      * intros ([|i] & -> & Hi); simpl in Hi.
        -- left. split; [lia | congruence].
        -- right. exists i. split; [lia | done].
    + rewrite Hm1, Hm2. split.
      * intros [[-> (d & -> & Hd)]|(i & d & -> & Hi & Hd)].
        -- exists 0, d. split; [lia | done].
        -- exists (S i), d. split; [lia | done].
      * intros ([|i] & d & -> & Hi & Hd); simpl in Hi.
        -- left. split; [lia|]. exists d. split; [congruence | done].
        -- right. exists i, d. split; [lia | done].
Qed.

Lemma finish_output (st : state) :
  ∃ new,
    output (finish st).1 = output st ++ new
    ∧ ∀ m, (WarnInvalidJson m ∉ new) ∧ (WarnMissingFields m ∉ new).
Proof.
  unfold Loader.finish. destruct (Loader.batch _ st) as [|d b].
  - eexists. split; [done|]. intros m. set_solver.
  - destruct (insert_many _ _); eexists; (split; [done|]);
      intros m; set_solver.
Qed.

(** X10.  The run prints "Invalid JSON on line n" exactly for the lines that
    fail to parse and "Line n missing required fields" exactly for the
    parsed lines whose validation gives false, with n the position of the
    line in the file counted from 1, blank lines included. *)
Theorem warnings_name_their_line (fresh : collection) (lines : list line)
    (m : nat) :
  (WarnInvalidJson m ∈ output (main fresh lines).1
   ↔ ∃ i, m = S i ∧ lines !! i = Some Malformed)
  ∧ (WarnMissingFields m ∈ output (main fresh lines).1
     ↔ ∃ i d, m = S i ∧ lines !! i = Some (Parsed d)
              ∧ all_in required_fields d = Some false).
Proof.
  unfold Loader.main.
  destruct (read_lines_output lines (State collection [] 0 0 fresh [] []) 1)
    as (new1 & Ho1 & Hj & Hm).
  destruct (finish_output
              (read_lines (State collection [] 0 0 fresh [] []) 1 lines))
    as (new2 & Ho2 & Hnone).
  rewrite Ho2, Ho1. simpl. destruct (Hnone m) as [Hn1 Hn2].
  split; rewrite elem_of_app.
  - rewrite Hj. split; [|by left]. intros [?|?]; [done | by exfalso].
  - rewrite Hm. split; [|by left]. intros [?|?]; [done | by exfalso].
Qed.

(** *** The batches handed to the store *)

Lemma process_line_calls (st : state) n ln :
  Forall (λ b, BATCH_SIZE ≤ length b) (calls st) →
  Forall (λ b, BATCH_SIZE ≤ length b) (calls (process_line st n ln)).
Proof.
  intros Hc. destruct ln as [| |document]; [done..|].
  unfold Loader.process_line.
  destruct (all_in required_fields document) as [[|]|]; [|done..].
  case_decide as Hfull; [|done].
  destruct (insert_many _ _); simpl;
    (apply Forall_app; split; [done|]); by repeat constructor.
Qed.

Lemma read_lines_calls lines : ∀ (st : state) n,
  Forall (λ b, BATCH_SIZE ≤ length b) (calls st) →
  Forall (λ b, BATCH_SIZE ≤ length b) (calls (read_lines st n lines)).
Proof.
  induction lines as [|ln lines IH]; intros st n Hc; [done|].
  simpl. by apply IH, process_line_calls.
Qed.

(** X11.  Whatever the store does, [insert_many] is never called with an
    empty batch, and every call except possibly the last one of the run
    carries at least 1000 documents. *)
Theorem calls_are_never_empty (fresh : collection) (lines : list line) :
  let batches := calls (main fresh lines).1 in
  Forall (λ b, b ≠ []) batches
  ∧ (∀ i b, batches !! i = Some b → S i < length batches →
            BATCH_SIZE ≤ length b).
Proof.
  cbv zeta. unfold Loader.main.
  pose proof (read_lines_calls lines (State collection [] 0 0 fresh [] []) 1
                (Forall_nil_2 _)) as Hc.
  pose proof BATCH_SIZE_pos as Hpos.
  assert (∀ l, Forall (λ b : list json, BATCH_SIZE ≤ length b) l →
               Forall (λ b, b ≠ []) l) as Hne.
  { intros l Hl. eapply Forall_impl; [exact Hl|].
    intros b Hb ->. simpl in Hb. lia. }
  unfold Loader.finish. destruct (Loader.batch _ _) as [|d b] eqn:E.
  - simpl. split; [by apply Hne|].
    intros i b Hb _. by apply (Forall_lookup_1 _ _ _ _ Hc Hb).
  - set (cs := Loader.calls collection _) in *.
    assert (Forall (λ b0 : list json, b0 ≠ []) (cs ++ [d :: b])
            ∧ ∀ i b0, (cs ++ [d :: b]) !! i = Some b0 →
                      S i < length (cs ++ [d :: b]) →
                      BATCH_SIZE ≤ length b0) as Hboth.
    { split.
      - apply Forall_app. split; [by apply Hne|]. by repeat constructor.
      - intros i b0 Hb Hi. rewrite length_app in Hi. simpl in Hi.
        apply lookup_app_Some in Hb as [Hb|[Hge Hb]].
        + by apply (Forall_lookup_1 _ _ _ _ Hc Hb).
        + apply lookup_lt_Some in Hb. simpl in Hb. lia. }
    destruct (insert_many _ _); simpl; exact Hboth.
Qed.
End AnyStore.

(** *** What the validation accepts *)

Lemma prefix_spec p : ∀ s,
  String.prefix p s = true ↔ ∃ post, s = p +:+ post.
Proof.
  induction p as [|a p IH]; intros s.
  - destruct s; simpl; (split; [intros _; by eexists | done]).
  - destruct s as [|b s]; simpl.
    + split; [done | by intros [post ?]].
    + destruct (Ascii.ascii_dec a b) as [->|Hne].
      * rewrite IH. split.
        -- intros [post ->]. by exists post.
        -- intros [post Hp]. rewrite append_cons in Hp.
           injection Hp as ->. by exists post.
      * split; [done|]. intros [post Hp]. rewrite append_cons in Hp.
        congruence.
Qed.

(** [contains] is the substring test. *)
Lemma contains_spec needle : ∀ haystack,
  contains needle haystack = true
  ↔ ∃ pre post, haystack = pre +:+ needle +:+ post.
Proof.
  induction haystack as [|c rest IH].
  - change (contains needle EmptyString)
      with (String.prefix needle EmptyString || false).
    rewrite orb_false_r, prefix_spec. split.
    + intros [post ->]. by exists EmptyString, post.
    + intros ([|? pre] & post & Hp); [by exists post|].
      by rewrite append_cons in Hp.
  - change (contains needle (String c rest))
      with (String.prefix needle (String c rest) || contains needle rest).
    rewrite orb_true_iff, prefix_spec, IH. split.
    + intros [[post ->]|(pre & post & ->)].
      * by exists EmptyString, post.
      * by exists (String c pre), post.
    + intros ([|c' pre] & post & Hp).
      * left. by exists post.
      * right. rewrite append_cons in Hp. injection Hp as -> ->.
        by exists pre, post.
Qed.

Lemma all_in_true fields document :
  all_in fields document = Some true
  ↔ ∀ field, field ∈ fields → py_in field document = Some true.
Proof.
  induction fields as [|f fields IH]; simpl.
  - split; [intros _ ? ?%elem_of_nil; done | done].
  - destruct (py_in f document) as [[|]|] eqn:E.
    + rewrite IH. split.
      * intros Hall field [->|?]%elem_of_cons; [done | by apply Hall].
      * intros Hall field Hf. apply Hall. by right.
    + split; [done|]. intros Hall.
      specialize (Hall f (list_elem_of_here _ _)). congruence.
    + split; [done|]. intros Hall.
      specialize (Hall f (list_elem_of_here _ _)). congruence.
Qed.

Lemma existsb_is_JString field items :
  existsb (is_JString field) items = true ↔ JString field ∈ items.
Proof.
  rewrite existsb_exists. split.
  - intros (v & Hv%list_elem_of_In & Hs). destruct v; try done.
    simpl in Hs. by apply bool_decide_eq_true in Hs as ->.
  - intros Hin. exists (JString field). split; [by apply list_elem_of_In|].
    simpl. by apply bool_decide_eq_true.
Qed.

Section Validation.
Variable collection : Type.
Variable insert_many : collection → list json → option collection.

(** X12.  The validation is Python's [in] on whatever the line parses to:
    an object passes when its keys include the six names; an array passes
    when it holds the six names as strings; a string passes when it contains
    each of the six names as a substring; for null, a boolean or a number
    the test raises, and the line only gets a "line error" warning. *)
Theorem validation_by_kind :
  (∀ members,
     validated (JObject members)
     ↔ ∀ field, field ∈ required_fields → field ∈ members.*1)
  ∧ (∀ items,
       validated (JArray items)
       ↔ ∀ field, field ∈ required_fields → JString field ∈ items)
  ∧ (∀ s,
       validated (JString s)
       ↔ ∀ field, field ∈ required_fields →
                  ∃ pre post, s = pre +:+ field +:+ post)
  ∧ (∀ document (st : state collection) n,
       match document with
       | JNull | JBool _ | JNumber _ =>
           ¬ validated document
           ∧ process_line collection insert_many st n (Parsed document)
             = warn collection st (WarnLineError n)
       | _ => True
       end).
Proof.
  unfold validated. split; [|split; [|split]].
  - intros members. rewrite all_in_true. apply forall_proper. intros field.
    simpl. split; intros Hf Hin; specialize (Hf Hin).
    + injection Hf as Hf. by apply bool_decide_eq_true in Hf.
    + f_equal. by apply bool_decide_eq_true.
  - intros items. rewrite all_in_true. apply forall_proper. intros field.
    simpl. split; intros Hf Hin; specialize (Hf Hin).
    + injection Hf as Hf. by apply existsb_is_JString.
    + f_equal. by apply existsb_is_JString.
  - intros s. rewrite all_in_true. apply forall_proper. intros field.
    simpl. split; intros Hf Hin; specialize (Hf Hin).
    + injection Hf as Hf. by apply contains_spec.
    + f_equal. by apply contains_spec.
  - by intros [| | | | |].
Qed.

End Validation.

(** *** Loading into a database that already has articles *)

Section Reloading.
Variable db : Type.
Variable has_articles : db → bool.
Variable drop_articles : db → db.
Variable insert_many : db → list json → option db.

(** The documents of the [articles] collection, in insertion order. *)
Variable contents : db → list json.

Hypothesis drop_empties : ∀ d, contents (drop_articles d) = [].
Hypothesis absent_is_empty : ∀ d, has_articles d = false → contents d = [].
Hypothesis insert_succeeds : reliable insert_many.
Hypothesis insert_appends : ∀ d docs d',
  insert_many d docs = Some d' → contents d' = contents d ++ docs.

Lemma process_line_contents (fresh : db) (st : Loader.state db) n ln :
  contents (Loader.articles _ st)
    = contents fresh ++ mjoin (Loader.calls _ st) →
  contents (Loader.articles _ (Loader.process_line _ insert_many st n ln))
  = contents fresh
    ++ mjoin (Loader.calls _ (Loader.process_line _ insert_many st n ln)).
Proof.
  intros Hc. destruct ln as [| |document]; [done..|].
  unfold Loader.process_line.
  destruct (all_in required_fields document) as [[|]|]; [|done..].
  case_decide as Hfull; [|done].
  destruct (insert_succeeds (Loader.articles _ st)
              (Loader.batch _ st ++ [document])) as [articles' Hi].
  rewrite Hi. simpl. rewrite (insert_appends _ _ _ Hi), Hc, join_app.
  simpl. by rewrite app_nil_r, <- app_assoc.
Qed.

Lemma read_lines_contents (fresh : db) lines : ∀ (st : Loader.state db) n,
  contents (Loader.articles _ st)
    = contents fresh ++ mjoin (Loader.calls _ st) →
  contents (Loader.articles _ (Loader.read_lines _ insert_many st n lines))
  = contents fresh
    ++ mjoin (Loader.calls _ (Loader.read_lines _ insert_many st n lines)).
Proof.
  induction lines as [|ln lines IH]; intros st n Hc; [done|].
  simpl. by apply IH, process_line_contents.
Qed.

Lemma main_contents (fresh : db) (lines : list line) :
  contents (Loader.articles _ (Loader.main _ insert_many fresh lines).1)
  = contents fresh ++ accepted lines.
Proof.
  destruct (main_inserts_accepted _ insert_many fresh lines insert_succeeds)
    as [_ <-].
  unfold Loader.main.
  pose proof (read_lines_contents fresh lines
                (State db [] 0 0 fresh [] []) 1) as Hc.
  simpl in Hc. rewrite app_nil_r in Hc. specialize (Hc eq_refl).
  unfold Loader.finish.
  destruct (Loader.batch _ _) as [|doc b]; [done|].
  destruct (insert_succeeds
              (Loader.articles _
                 (Loader.read_lines _ insert_many
                    (State db [] 0 0 fresh [] []) 1 lines))
              (doc :: b)) as [articles' Hi].
  rewrite Hi. simpl. rewrite (insert_appends _ _ _ Hi), Hc, join_app.
  simpl. by rewrite app_nil_r, <- app_assoc.
Qed.

(** X13.  With a store that accepts every batch, after a run the [articles]
    collection holds exactly the validated records of the file, in file
    order, whatever the database held before: a run replaces the collection
    and never adds to it, so loading the same file twice leaves the same
    collection as loading it once. *)
Theorem load_replaces_collection (d : db) (lines again : list line) :
  let first := load db has_articles drop_articles insert_many d lines in
  let second :=
    load db has_articles drop_articles insert_many
         (Loader.articles _ first.2.1) again in
  first.2.2 = Exit0
  ∧ contents (Loader.articles _ first.2.1) = accepted lines
  ∧ contents (Loader.articles _ second.2.1) = accepted again.
Proof.
  assert (∀ d0 ls,
            let run := load db has_articles drop_articles insert_many d0 ls in
            run.2.2 = Exit0
            ∧ contents (Loader.articles _ run.2.1) = accepted ls) as Hload.
  { intros d0 ls. unfold load. destruct (has_articles d0) eqn:E; simpl.
    - split; [by apply main_inserts_accepted|].
      by rewrite main_contents, drop_empties.
    - split; [by apply main_inserts_accepted|].
      by rewrite main_contents, absent_is_empty. }
  cbv zeta. split; [apply Hload|]. split; apply Hload.
Qed.

End Reloading.

Lemma load_replaces_collection_witness :
  list_contents
    (Loader.articles _
       (load _ list_has_articles list_drop list_db_insert_many
             (Some [no_title]) [Malformed; Parsed full_record]).2.1)
  = accepted [Malformed; Parsed full_record].
Proof.
  destruct (load_replaces_collection _ list_has_articles list_drop
              list_db_insert_many list_contents) with
    (d := Some [no_title]) (lines := [Malformed; Parsed full_record])
    (again := @nil line) as (_ & H & _).
  - done.
  - by intros [c|].
  - intros c docs. by eexists.
  - intros c docs c' [= <-]. done.
  - exact H.
Defined.

Lemma run_ledger_witness :
  Loader.batch _
    (Loader.main (list json) failing_insert_many [] [Parsed full_record]).1
  ≠ []
  ∧ accepted [Parsed full_record]
    = take (Loader.total_documents _
              (Loader.main (list json) failing_insert_many []
                 [Parsed full_record]).1)
           (accepted [Parsed full_record])
      ++ Loader.batch _
           (Loader.main (list json) failing_insert_many []
              [Parsed full_record]).1
  ∧ last (Loader.calls _
            (Loader.main (list json) failing_insert_many []
               [Parsed full_record]).1)
    = Some (Loader.batch _
              (Loader.main (list json) failing_insert_many []
                 [Parsed full_record]).1)
  ∧ last (Loader.output _
            (Loader.main (list json) failing_insert_many []
               [Parsed full_record]).1)
    = Some ErrorDuringProcessing.
Proof.
  pose proof (run_ledger (list json) failing_insert_many []
                [Parsed full_record]) as H.
  cbv zeta in H. destruct H as (_ & _ & _ & _ & H).
  apply H. vm_compute. reflexivity.
Defined.

Lemma calls_are_never_empty_witness :
  BATCH_SIZE ≤ length (take 1000 (accepted file_2500)).
Proof.
  pose proof (calls_are_never_empty (list json) list_insert_many []
                file_2500) as H.
  cbv zeta in H. destruct H as [_ H].
  apply (H 0).
  - vm_compute. reflexivity.
  - apply (bool_decide_unpack _). vm_compute. exact I.
Defined.
End LoaderExtras.
